(** * hft-scalping-bot: the ledger store and the process supervisor

    A shallow embedding of [app/database.py], [app/config.py] and
    [app/main.py].  Tables are lists of rows in insertion order, Python
    dictionaries are association lists or finite maps, exceptions are an
    explicit result type, and the code of the external collaborators
    (the trading engine, the Telegram bot) is a record of outcomes.
    What the database does with a value on its own account (binding
    it to a column, reading a JSON column back, taking a limit that is
    no count) is a parameter of the operation that meets it. *)

From Stdlib Require Import ZArith QArith Ascii String Sorting.Sorted Permutation.
From stdpp Require Import base option list gmap strings sorting pretty.

Set Warnings "-register-all".
Open Scope string_scope.
Open Scope list_scope.
Open Scope Z_scope.

(** ** Python values and exceptions *)

(** The values [json.dumps] takes; Python's [None] is [JNull].  A
    finite number, [int] or [float], is carried by its value. *)
Inductive json :=
| JNull
| JBool (b : bool)
| JNum (q : Q)
| JInfinity (negative : bool)
| JNaN
| JText (s : string)
| JArr (l : list json)
| JObj (l : list (string * json)).

(** A Python [float]; a finite one is carried by its value, which the
    ledger never computes with. *)
Inductive pyfloat :=
| Finite (q : Q)
| Infinite (negative : bool)
| NaN.

(** The values that cross the ledger's interface. *)
Inductive pyval :=
| VNone
| VStr (s : string)
| VInt (z : Z)
| VFloat (f : pyfloat)
| VDateTime (t : Z)
| VJson (j : json).

(** Exceptions.  [SystemExit] and [KeyboardInterrupt] derive from
    [BaseException] only, so [except Exception] lets them through. *)
Inductive exn :=
| ValueError (msg : string)
| TypeError (msg : string)
| CompileError (msg : string)
| StatementError (msg : string)
| IntegrityError (msg : string)
| OperationalError (msg : string)
| FileExistsError (msg : string)
| RuntimeError (msg : string)
| OverflowError (msg : string)
| SystemExit (code : Z)
| KeyboardInterrupt.

#[global] Instance exn_eq_dec : EqDecision exn.
Proof. solve_decision. Defined.

Definition is_Exception (e : exn) : bool :=
  match e with
  | SystemExit _ | KeyboardInterrupt => false
  | _ => true
  end.

(** [str(e)] *)
Definition str (e : exn) : string :=
  match e with
  | ValueError m | TypeError m | CompileError m | StatementError m
  | IntegrityError m | OperationalError m | FileExistsError m
  | RuntimeError m | OverflowError m => m
  | SystemExit c => pretty c
  | KeyboardInterrupt => ""
  end.

(** The text of a string in quotes. *)
Definition quote (s : string) : string := String.append "'" (String.append s "'").

Inductive result (A : Type) :=
| Return (a : A)
| Raise (e : exn).
Arguments Return {A} a.
Arguments Raise {A} e.

(** ** app/config.py *)

(** [os.environ], and the entries of the [.env] file. *)
Abbreviation environ := (gmap string string).

(** [os.getenv(name)] *)
Definition getenv (env : environ) (name : string) : option string := env !! name.

(** [os.getenv(name, default)] *)
Definition getenv_default (env : environ) (name : string) (dflt : string) : string :=
  default dflt (getenv env name).

(** [load_dotenv()]: the variables of the file are added to the
    environment; a variable that is already set keeps its value. *)
Definition load_dotenv (file : environ) (env : environ) : environ := env ∪ file.

(** Truth value of a string: empty is false. *)
Definition truthy (s : string) : bool :=
  match s with EmptyString => false | _ => true end.

(** [not os.getenv(var)] *)
Definition unset_or_empty (env : environ) (var : string) : bool :=
  match getenv env var with
  | None => true
  | Some s => negb (truthy s)
  end.

Definition lower_ascii (c : ascii) : ascii :=
  let n := nat_of_ascii c in
  if (65 <=? n)%nat && (n <=? 90)%nat then ascii_of_nat (n + 32) else c.

(** [s.lower()] *)
Fixpoint lower (s : string) : string :=
  match s with
  | EmptyString => EmptyString
  | String c rest => String (lower_ascii c) (lower rest)
  end.

(** [class TradingConfig]; a [float] field is carried as a rational, so
    as a finite value. *)
Record TradingConfig := {
  BYBIT_TESTNET : bool;
  BYBIT_API_KEY : string;
  BYBIT_API_SECRET : string;
  SYMBOL : string;
  TIMEFRAME : string;
  LEVERAGE : Z;
  MAX_POSITION_SIZE : Q;
  MAX_OPEN_TRADES : Z;
  STOP_LOSS_PCT : Q;
  TAKE_PROFIT_PCT : Q;
  MAX_DAILY_LOSS_PCT : Q;
  ML_MODEL_PATH : string;
  PREDICTION_CONFIDENCE : Q;
  ML_TRAIN_INTERVAL_HOURS : Z;
  TELEGRAM_BOT_TOKEN : string;
  TELEGRAM_CHAT_ID : string;
  ENABLE_AUTO_LEVERAGE_ADJUSTMENT : bool;
  VOLATILITY_THRESHOLD : Q;
  MAX_CONSECUTIVE_LOSSES : Z;
  HEARTBEAT_INTERVAL : Z;
  ORDER_TIMEOUT : Z;
  DATA_FETCH_INTERVAL : Q;
  DATABASE_URL : string;
  RENDER : bool;
  HEALTH_CHECK_PORT : Z
}.

(** The defaults of the class body.  The two [os.getenv] calls there
    run when the class is defined, on the environment of that moment
    [env0]. *)
Definition defaults (env0 : environ) : TradingConfig := {|
  BYBIT_TESTNET := bool_decide (lower (getenv_default env0 "BYBIT_TESTNET" "true") = "true");
  BYBIT_API_KEY := "";
  BYBIT_API_SECRET := "";
  SYMBOL := "BTCUSDT";
  TIMEFRAME := "1";
  LEVERAGE := 5;
  MAX_POSITION_SIZE := 1 # 1000;
  MAX_OPEN_TRADES := 2;
  STOP_LOSS_PCT := 3 # 10;
  TAKE_PROFIT_PCT := 2 # 10;
  MAX_DAILY_LOSS_PCT := 1;
  ML_MODEL_PATH := "models/scalping_model.joblib";
  PREDICTION_CONFIDENCE := 70 # 100;
  ML_TRAIN_INTERVAL_HOURS := 24;
  TELEGRAM_BOT_TOKEN := "";
  TELEGRAM_CHAT_ID := "";
  ENABLE_AUTO_LEVERAGE_ADJUSTMENT := true;
  VOLATILITY_THRESHOLD := 15 # 10;
  MAX_CONSECUTIVE_LOSSES := 3;
  HEARTBEAT_INTERVAL := 30;
  ORDER_TIMEOUT := 10;
  DATA_FETCH_INTERVAL := 5 # 10;
  DATABASE_URL := "sqlite:///./data/trades.db";
  RENDER := bool_decide (lower (getenv_default env0 "RENDER" "false") = "true");
  HEALTH_CHECK_PORT := 8080
|}.

(** [TradingConfig.validate()] *)
Definition validate (self : TradingConfig) : bool :=
  if negb (truthy (BYBIT_API_KEY self)) || negb (truthy (BYBIT_API_SECRET self)) then false
  else if (LEVERAGE self <? 1) || (100 <? LEVERAGE self) then false
  else if Qle_bool (MAX_POSITION_SIZE self) 0 then false
  else true.

Section FromEnv.
(** Python's [int(s)] and [float(s)] on a string: [None] stands for
    [ValueError]. *)
Variable py_int : string → option Z.
Variable py_float : string → option Q.

(** [int(os.getenv(name, default))] *)
Definition int_getenv (env : environ) (name : string) (dflt : Z) : result Z :=
  match getenv env name with
  | None => Return dflt
  | Some s =>
      match py_int s with
      | Some z => Return z
      | None => Raise (ValueError (String.append "invalid literal for int() with base 10: " s))
      end
  end.

(** [float(os.getenv(name, default))] *)
Definition float_getenv (env : environ) (name : string) (dflt : Q) : result Q :=
  match getenv env name with
  | None => Return dflt
  | Some s =>
      match py_float s with
      | Some q => Return q
      | None => Raise (ValueError (String.append "could not convert string to float: " s))
      end
  end.

(** [TradingConfig.from_env()] *)
Definition from_env (env0 env : environ) : result TradingConfig :=
  let config := defaults env0 in
  match int_getenv env "LEVERAGE" (LEVERAGE config) with
  | Raise e => Raise e
  | Return leverage =>
  match float_getenv env "MAX_POSITION_SIZE" (MAX_POSITION_SIZE config) with
  | Raise e => Raise e
  | Return max_position_size =>
  match float_getenv env "STOP_LOSS_PCT" (STOP_LOSS_PCT config) with
  | Raise e => Raise e
  | Return stop_loss_pct =>
  match float_getenv env "TAKE_PROFIT_PCT" (TAKE_PROFIT_PCT config) with
  | Raise e => Raise e
  | Return take_profit_pct =>
      Return {|
        BYBIT_TESTNET := BYBIT_TESTNET config;
        BYBIT_API_KEY := getenv_default env "BYBIT_API_KEY" "";
        BYBIT_API_SECRET := getenv_default env "BYBIT_API_SECRET" "";
        SYMBOL := getenv_default env "TRADING_SYMBOL" (SYMBOL config);
        TIMEFRAME := TIMEFRAME config;
        LEVERAGE := leverage;
        MAX_POSITION_SIZE := max_position_size;
        MAX_OPEN_TRADES := MAX_OPEN_TRADES config;
        STOP_LOSS_PCT := stop_loss_pct;
        TAKE_PROFIT_PCT := take_profit_pct;
        MAX_DAILY_LOSS_PCT := MAX_DAILY_LOSS_PCT config;
        ML_MODEL_PATH := ML_MODEL_PATH config;
        PREDICTION_CONFIDENCE := PREDICTION_CONFIDENCE config;
        ML_TRAIN_INTERVAL_HOURS := ML_TRAIN_INTERVAL_HOURS config;
        TELEGRAM_BOT_TOKEN := getenv_default env "TELEGRAM_BOT_TOKEN" "";
        TELEGRAM_CHAT_ID := getenv_default env "TELEGRAM_CHAT_ID" "";
        ENABLE_AUTO_LEVERAGE_ADJUSTMENT := ENABLE_AUTO_LEVERAGE_ADJUSTMENT config;
        VOLATILITY_THRESHOLD := VOLATILITY_THRESHOLD config;
        MAX_CONSECUTIVE_LOSSES := MAX_CONSECUTIVE_LOSSES config;
        HEARTBEAT_INTERVAL := HEARTBEAT_INTERVAL config;
        ORDER_TIMEOUT := ORDER_TIMEOUT config;
        DATA_FETCH_INTERVAL := DATA_FETCH_INTERVAL config;
        DATABASE_URL := getenv_default env "DATABASE_URL" (DATABASE_URL config);
        RENDER := RENDER config;
        HEALTH_CHECK_PORT := HEALTH_CHECK_PORT config
      |}
  end end end end.
End FromEnv.

(** ** app/database.py *)

Module BotSettings.
(** [class BotSettings(Base)], table [bot_settings]. *)
Record row := {
  id : Z;                 (* Column(Integer, primary_key=True) *)
  key : string;           (* Column(String, unique=True, index=True) *)
  value : json;           (* Column(JSON) *)
  updated_at : Z          (* Column(DateTime, default=utcnow, onupdate=utcnow) *)
}.

Abbreviation table := (list row).

(** [.where(BotSettings.key == key)] *)
Definition where_key (k : string) (tbl : table) : table :=
  filter (λ r, key r = k) tbl.

Definition unique_ids (tbl : table) : Prop := NoDup (id <$> tbl).

(** The integer primary key of the next inserted row: 1 in an empty
    table, otherwise one more than the largest in the table. *)
Definition next_id (tbl : table) : Z :=
  match id <$> tbl with
  | [] => 1
  | i :: ids => 1 + foldr Z.max i ids
  end.

(** [UPDATE bot_settings SET value=?, updated_at=? WHERE key = ?] *)
Definition update_value (k : string) (v : json) (now : Z) (tbl : table) : table :=
  (λ r, if decide (key r = k)
        then {| id := id r; key := key r; value := v; updated_at := now |}
        else r) <$> tbl.

(** [session.add(BotSettings(key=key, value=value))] and the flush:
    the insert is refused when it would break a constraint. *)
Definition insert (k : string) (v : json) (now : Z) (tbl : table) : result table :=
  let r := {| id := next_id tbl; key := k; value := v; updated_at := now |} in
  if decide (k ∈ key <$> tbl) then Raise (IntegrityError "UNIQUE constraint failed: bot_settings.key")
  else if decide (id r ∈ id <$> tbl) then Raise (IntegrityError "UNIQUE constraint failed: bot_settings.id")
  else Return (tbl ++ [r]).
End BotSettings.

(** [get_bot_setting(key)]: [row.value if row else None]. *)
Definition get_bot_setting (k : string) (tbl : BotSettings.table) : json :=
  match head (BotSettings.where_key k tbl) with
  | Some row => BotSettings.value row
  | None => JNull
  end.

(** [set_bot_setting(key, value)] at time [now], [v] being the value
    as the JSON column holds it ([None] is held as it is): the answer
    and the table after the commit, or the exception and the table
    rolled back. *)
Definition set_bot_setting (now : Z) (k : string) (v : json) (tbl : BotSettings.table)
  : result bool * BotSettings.table :=
  match head (BotSettings.where_key k tbl) with
  | Some _ => (Return true, BotSettings.update_value k v now tbl)
  | None =>
      match BotSettings.insert k v now tbl with
      | Return tbl' => (Return true, tbl')
      | Raise e => (Raise e, tbl)
      end
  end.




Module TradeLog.
(** The columns of [class TradeLog(Base)], table [trades]. *)
Inductive column :=
| id | symbol | side | quantity | entry_price | exit_price | stop_loss
| take_profit | leverage | status | pnl | pnl_percentage | opened_at
| closed_at | reason | metadata | created_at.

#[global] Instance column_eq_dec : EqDecision column.
Proof. solve_decision. Defined.

Definition columns : list column :=
  [id; symbol; side; quantity; entry_price; exit_price; stop_loss;
   take_profit; leverage; status; pnl; pnl_percentage; opened_at;
   closed_at; reason; metadata; created_at].

Definition name (c : column) : string :=
  match c with
  | id => "id" | symbol => "symbol" | side => "side"
  | quantity => "quantity" | entry_price => "entry_price"
  | exit_price => "exit_price" | stop_loss => "stop_loss"
  | take_profit => "take_profit" | leverage => "leverage"
  | status => "status" | pnl => "pnl"
  | pnl_percentage => "pnl_percentage" | opened_at => "opened_at"
  | closed_at => "closed_at" | reason => "reason"
  | metadata => "metadata" | created_at => "created_at"
  end.

(** The column a keyword of the [values] clause names, if any. *)
Definition column_of_name (s : string) : option column :=
  head (filter (λ c, name c = s) columns).

Inductive coltype := String_ | Float_ | Integer_ | DateTime_ | JSON_.

Definition type_of (c : column) : coltype :=
  match c with
  | id | symbol | side | status | reason => String_
  | quantity | entry_price | exit_price | stop_loss | take_profit
  | pnl | pnl_percentage => Float_
  | leverage => Integer_
  | opened_at | closed_at | created_at => DateTime_
  | metadata => JSON_
  end.

(** A row gives every column a value. *)
Definition row := column → pyval.
Abbreviation table := (list row).

Definition set (c : column) (v : pyval) (r : row) : row :=
  λ c', if decide (c' = c) then v else r c'.

(** The row with every column NULL. *)
Definition null_row : row := λ _, VNone.

(** The resolved [SET] clause of an update, or the column values of
    an insert. *)
Definition assignments := list (column * pyval).

(** What the database makes of the parameters of a statement: for
    each the value its column then holds, or the exception of the
    driver when one of them cannot be bound. *)
Definition binder := assignments → result assignments.

(** The constructor of [TradeLog] with a keyword that is no attribute. *)
Definition invalid_keyword (k : string) : exn :=
  TypeError (String.append (quote k) " is an invalid keyword argument for TradeLog").

(** The [values] of an update with a keyword that is no column. *)
Definition unconsumed_column (k : string) : exn :=
  CompileError (String.append "Unconsumed column names: " k).

(** [.values(...)] with the dictionary as its keywords: every keyword
    has to name a column. *)
Fixpoint values (data : list (string * pyval)) : result assignments :=
  match data with
  | [] => Return []
  | (k, v) :: rest =>
      match column_of_name k with
      | None => Raise (unconsumed_column k)
      | Some c =>
          match values rest with
          | Return a => Return ((c, v) :: a)
          | Raise e => Raise e
          end
      end
  end.

(** [TradeLog(...)] with the dictionary as its keywords, the
    constructor of the declarative base: each keyword in turn is set
    on the instance, where only a column's reaches the table.
    [keyword k v] is what becomes of a keyword that names no column:
    the exception raised, which for a keyword that is no attribute of
    the class is [invalid_keyword k], or [None] when the attribute is
    set. *)
Fixpoint construct (keyword : string → pyval → option exn) (data : list (string * pyval))
  : result assignments :=
  match data with
  | [] => Return []
  | (k, v) :: rest =>
      match column_of_name k with
      | Some c =>
          match construct keyword rest with
          | Return a => Return ((c, v) :: a)
          | Raise e => Raise e
          end
      | None =>
          match keyword k v with
          | Some e => Raise e
          | None => construct keyword rest
          end
      end
  end.

(** Merge the assignments into a row; the other columns stay. *)
Definition merge (a : assignments) (r : row) : row :=
  foldl (λ r' cv, set cv.1 cv.2 r') r a.

(** The value the assignments give a column, if they name it. *)
Definition supplied (a : assignments) (c : column) : option pyval :=
  foldl (λ o cv, if decide (c = cv.1) then Some cv.2 else o) None a.

(** [.where(TradeLog.id == trade_id)] *)
Definition has_id (trade_id : string) (r : row) : Prop := r id = VStr trade_id.

#[global] Instance pyval_str_dec (v : pyval) (s : string) : Decision (v = VStr s).
Proof.
  destruct v as [| s' | | | |]; try (right; discriminate).
  destruct (decide (s' = s)) as [->|Hne]; [left; reflexivity | right; congruence].
Defined.

#[global] Instance has_id_dec trade_id r : Decision (has_id trade_id r).
Proof. unfold has_id. apply _. Defined.

(** What the update makes of a row: the rows the [where] clause
    matches get the assignments. *)
Definition updated (trade_id : string) (a : assignments) (r : row) : row :=
  if decide (has_id trade_id r) then merge a r else r.

(** The primary key of a row, when it has one. *)
Definition pk (r : row) : option string :=
  match r id with VStr s => Some s | _ => None end.

(** The primary-key constraint: [id] is NOT NULL and unique. *)
Definition primary_key_ok (tbl : table) : Prop :=
  Forall (λ r, is_Some (pk r)) tbl ∧ NoDup (pk <$> tbl).

#[global] Instance primary_key_ok_dec tbl : Decision (primary_key_ok tbl).
Proof. unfold primary_key_ok. apply _. Defined.

(** [ORDER BY opened_at DESC]: the time a row sorts by; NULL has
    none. *)
Definition opened (r : row) : option Z :=
  match r opened_at with VDateTime t => Some t | _ => None end.

(** The value the [INSERT] of an instance gives a column: the
    attribute, [None] where none was set.  [created_at] has a default,
    the clock, which is used when the attribute is [None]. *)
Definition insert_value (now : Z) (attrs : row) (c : column) : pyval :=
  match c, attrs c with
  | created_at, VNone => VDateTime now
  | _, v => v
  end.

Definition insert_values (now : Z) (attrs : row) : assignments :=
  (λ c, (c, insert_value now attrs c)) <$> columns.

(** The constraint an insert or update breaks. *)
Definition constraint_failed (tbl : table) : exn :=
  if decide (Forall (λ r, is_Some (pk r)) tbl)
  then IntegrityError "UNIQUE constraint failed: trades.id"
  else IntegrityError "NOT NULL constraint failed: trades.id".
End TradeLog.

(** [log_trade(trade_data)] at time [now]: build the instance from
    the keywords, add it and commit, which binds the values of the
    [INSERT] and checks the constraints; on an exception roll back and
    raise it again. *)
Definition log_trade (binds : TradeLog.binder) (keyword : string → pyval → option exn)
    (now : Z) (trade_data : list (string * pyval)) (tbl : TradeLog.table)
  : result bool * TradeLog.table :=
  match TradeLog.construct keyword trade_data with
  | Raise e => (Raise e, tbl)
  | Return a =>
      match binds (TradeLog.insert_values now (TradeLog.merge a TradeLog.null_row)) with
      | Raise e => (Raise e, tbl)
      | Return b =>
          let trade_log := TradeLog.merge b TradeLog.null_row in
          if decide (TradeLog.primary_key_ok (tbl ++ [trade_log]))
          then (Return true, tbl ++ [trade_log])
          else (Raise (TradeLog.constraint_failed (tbl ++ [trade_log])), tbl)
      end
  end.

(** [result.rowcount]: the rows the [where] clause matched. *)
Definition rowcount (trade_id : string) (tbl : TradeLog.table) : Z :=
  Z.of_nat (length (filter (TradeLog.has_id trade_id) tbl)).

(** [update_trade(trade_id, update_data)]: one [UPDATE ... WHERE id =
    trade_id] with the dictionary as its [values], compiled, bound and
    run, then a commit, and [rowcount > 0] as the answer; on an
    exception roll back and raise it again.  An [UPDATE] with nothing
    to set is sent as it is, and the database refuses it. *)
Definition update_trade (binds : TradeLog.binder) (trade_id : string)
    (update_data : list (string * pyval)) (tbl : TradeLog.table)
  : result bool * TradeLog.table :=
  match update_data with
  | [] => (Raise (OperationalError "near WHERE: syntax error"), tbl)
  | _ =>
      match TradeLog.values update_data with
      | Raise e => (Raise e, tbl)
      | Return a =>
          match binds a with
          | Raise e => (Raise e, tbl)
          | Return b =>
              let tbl' := TradeLog.updated trade_id b <$> tbl in
              if decide (TradeLog.primary_key_ok tbl')
              then (Return (bool_decide (rowcount trade_id tbl > 0)), tbl')
              else (Raise (TradeLog.constraint_failed tbl'), tbl)
          end
      end
  end.

(** [desc(opened_at)]: [a] may come before [b].  Where the NULLs go is
    the database's choice: first ([nulls_first]) or last. *)
Definition desc (nulls_first : bool) (a b : option Z) : Prop :=
  match a, b with
  | Some x, Some y => y ≤ x
  | None, None => True
  | None, Some _ => nulls_first = true
  | Some _, None => nulls_first = false
  end.

Definition opened_desc (nulls_first : bool) (r1 r2 : TradeLog.row) : Prop :=
  desc nulls_first (TradeLog.opened r1) (TradeLog.opened r2).

#[global] Instance desc_dec nf a b : Decision (desc nf a b).
Proof. destruct a, b; simpl; apply _. Defined.

#[global] Instance opened_desc_dec nf r1 r2 : Decision (opened_desc nf r1 r2).
Proof. unfold opened_desc. apply _. Defined.

(** [select().order_by(desc(TradeLog.opened_at))]: the rows of the
    table in an order that is descending in [opened_at].  The statement
    names no second sort key, so any such order is an answer. *)
Definition order_by_opened_at_desc (nulls_first : bool) (tbl sorted : TradeLog.table) : Prop :=
  tbl ≡ₚ sorted ∧ StronglySorted (opened_desc nulls_first) sorted.

(** The query of [get_recent_trades] with a count for its limit:
    [rows] is an answer of [... ORDER BY opened_at DESC LIMIT limit],
    fetched whole. *)
Definition get_recent_trades (nulls_first : bool) (limit : nat) (tbl rows : TradeLog.table) : Prop :=
  ∃ sorted, order_by_opened_at_desc nulls_first tbl sorted ∧ rows = take limit sorted.

(** One database's answer: a stable sort. *)
Definition get_recent_trades_stable (nulls_first : bool) (limit : nat) (tbl : TradeLog.table)
  : TradeLog.table :=
  take limit (merge_sort (opened_desc nulls_first) tbl).

(** What a database does with a [LIMIT] that is no count of up to 64
    bits: a negative one is refused or, as by SQLite, taken as no limit
    at all; one that does not fit 64 bits cannot be bound. *)
Record limits := {
  negative_limit : option exn;      (* [None]: no limit *)
  oversized_limit : exn
}.

(** [get_recent_trades(limit)] for any [int]: what the call may give. *)
Definition get_recent_trades_limit (nulls_first : bool) (lim : limits) (limit : Z)
    (tbl : TradeLog.table) (answer : result TradeLog.table) : Prop :=
  if decide (-2 ^ 63 ≤ limit < 2 ^ 63) then
    if decide (0 ≤ limit) then
      ∃ rows, answer = Return rows ∧ get_recent_trades nulls_first (Z.to_nat limit) tbl rows
    else
      match negative_limit lim with
      | None => ∃ rows, answer = Return rows ∧ order_by_opened_at_desc nulls_first tbl rows
      | Some e => answer = Raise e
      end
  else answer = Raise (oversized_limit lim).

(** *** The schema and the data directory *)

Inductive node := Directory | RegularFile.

#[global] Instance node_eq_dec : EqDecision node.
Proof. solve_decision. Defined.

(** A path below the working directory, as its components. *)
Abbreviation path := (list string).

(** What [init_db] acts on: the files below the working directory and
    the tables of the database. *)
Record storage := {
  nodes : gmap path node;
  tables : gset string
}.

(** What the connection string points to. *)
Inductive db_target :=
| SqliteFile (file : path)
| OtherDatabase.

(** The module's [DATABASE_URL]: on Render the file [./data/trades.db],
    otherwise whatever the configured URL [parse_url]s to. *)
Definition database_target (parse_url : string → db_target) (config : TradingConfig) : db_target :=
  if RENDER config then SqliteFile ["data"; "trades.db"]
  else parse_url (DATABASE_URL config).

(** Is [dir] a directory?  The working directory itself is. *)
Definition is_dir (st : storage) (dir : path) : bool :=
  match dir with
  | [] => true
  | _ => bool_decide (nodes st !! dir = Some Directory)
  end.

(** [engine.begin()]: open the connection.  SQLite opens the database
    file, creating it in its directory when it is not there.  A
    database server is taken as reachable, and a file that is there as
    a database. *)
Definition connect (target : db_target) (st : storage) : result storage :=
  match target with
  | OtherDatabase => Return st
  | SqliteFile file =>
      if is_dir st (removelast file) then
        match nodes st !! file with
        | Some Directory => Raise (OperationalError "unable to open database file")
        | Some RegularFile => Return st
        | None => Return {| nodes := <[file := RegularFile]> (nodes st); tables := tables st |}
        end
      else Raise (OperationalError "unable to open database file")
  end.

(** The tables of [Base.metadata]. *)
Definition metadata_tables : list string := ["trades"; "bot_settings"].

(** [Base.metadata.create_all]: create each table that is not there. *)
Definition create_all (st : storage) : storage :=
  {| nodes := nodes st;
     tables := foldr (λ t ts, if decide (t ∈ ts) then ts else {[t]} ∪ ts) (tables st) metadata_tables |}.

(** [os.makedirs(name, exist_ok=True)], [made] being the part of the
    path already passed. *)
Fixpoint makedirs (made name : path) (st : storage) : result storage :=
  match name with
  | [] => Return st
  | c :: rest =>
      let p := made ++ [c] in
      match nodes st !! p with
      | Some Directory => makedirs p rest st
      | Some RegularFile => Raise (FileExistsError (String.append "File exists: " c))
      | None => makedirs p rest {| nodes := <[p := Directory]> (nodes st); tables := tables st |}
      end
  end.

(** [init_db()]: the answer and the storage it leaves.  The tables are
    committed when the [async with] block ends, before [makedirs]. *)
Definition init_db (target : db_target) (st : storage) : result unit * storage :=
  match connect target st with
  | Raise e => (Raise e, st)
  | Return st1 =>
      let st2 := create_all st1 in
      match makedirs [] ["data"] st2 with
      | Raise e => (Raise e, st2)
      | Return st3 => (Return (), st3)
      end
  end.

Definition schema_ok (st : storage) : Prop :=
  ∀ t, t ∈ metadata_tables → t ∈ tables st.

(** ** app/main.py *)

Inductive subsystem := EngineLoop | HealthEndpoint | Notifier.

#[global] Instance subsystem_eq_dec : EqDecision subsystem.
Proof. solve_decision. Defined.

(** The two texts [send_notification] is called with. *)
Inductive notification :=
| BotStarted (testnet : bool) (symbol : string) (leverage : Z) (time : Z)
| BotCrashed (error : string).

Inductive level := INFO | WARNING | ERROR.

(** What the code of the supervisor does that can be seen from
    outside, in order. *)
Inductive event :=
| Log (lvl : level) (msg : string)
| Constructed (s : subsystem)
| SignalHandler (signum : Z)
| Start (s : subsystem)
| Stop (s : subsystem)
| Notify (n : notification).

#[global] Instance level_eq_dec : EqDecision level.
Proof. solve_decision. Defined.

Definition is_start (e : event) : bool :=
  match e with Start _ => true | _ => false end.

Definition is_stop (e : event) : bool :=
  match e with Stop _ => true | _ => false end.

Definition is_error_log (e : event) : bool :=
  match e with Log ERROR _ => true | _ => false end.

Definition is_crash_notification (e : event) : bool :=
  match e with Notify (BotCrashed _) => true | _ => false end.

(** The subsystems a trace delivers [stop] to, in order. *)
Definition stops (tr : list event) : list subsystem :=
  omap (λ e, match e with Stop s => Some s | _ => None end) tr.

Definition SIGINT : Z := 2.
Definition SIGTERM : Z := 15.

(** The state the program acts on. *)
Record world := {
  trace : list event;
  disk : storage
}.

(** How a call ends: it returns, it raises, or it never ends. *)
Inductive outcome (A : Type) :=
| Returns (a : A)
| Raises (e : exn)
| Forever.
Arguments Returns {A} a.
Arguments Raises {A} e.
Arguments Forever {A}.

Definition M (A : Type) : Type := world → outcome A * world.

#[global] Instance M_ret : MRet M := λ A a w, (Returns a, w).

#[global] Instance M_bind : MBind M := λ A B k m w,
  match m w with
  | (Returns a, w') => k a w'
  | (Raises e, w') => (Raises e, w')
  | (Forever, w') => (Forever, w')
  end.

Definition raise {A} (e : exn) : M A := λ w, (Raises e, w).

(** [sys.exit(code)] *)
Definition sys_exit {A} (code : Z) : M A := raise (SystemExit code).

Definition emit (e : event) : M unit :=
  λ w, (Returns (), {| trace := trace w ++ [e]; disk := disk w |}).

Definition log (lvl : level) (msg : string) : M unit := emit (Log lvl msg).

Definition lift {A} (r : result A) : M A :=
  match r with
  | Return a => mret a
  | Raise e => raise e
  end.

(** A call into a collaborator that raises [e] or returns. *)
Definition call (o : option exn) : M unit :=
  match o with
  | Some e => raise e
  | None => mret ()
  end.

(** A loop with no exit. *)
Definition forever {A} : M A := λ w, (Forever, w).

(** An operation of the ledger store, run on the disk. *)
Definition on_disk {A} (op : storage → result A * storage) : M A :=
  λ w, match op (disk w) with
       | (Return a, d) => (Returns a, {| trace := trace w; disk := d |})
       | (Raise e, d) => (Raises e, {| trace := trace w; disk := d |})
       end.

(** [try: body except ...]: [handlers e] is the clause that catches
    [e], if one does. *)
Definition try_except {A} (body : M A) (handlers : exn → option (M A)) : M A :=
  λ w, match body w with
       | (Raises e, w') =>
           match handlers e with
           | Some handler => handler w'
           | None => (Raises e, w')
           end
       | r => r
       end.

(** [except Exception as e: handler(e)] *)
Definition except_Exception {A} (handler : exn → M A) (e : exn) : option (M A) :=
  if is_Exception e then Some (handler e) else None.

(** The code that is not in this repository's sources, by what each
    call does. *)
Record collaborators := {
  py_int : string → option Z;             (* int(s) *)
  py_float : string → option Q;           (* float(s) *)
  parse_url : string → db_target;         (* what a database URL denotes *)
  now : Z;                                (* datetime.now() *)
  new_TradingEngine : option exn;         (* TradingEngine(config) *)
  new_TelegramBot : option exn;           (* TelegramBot(config, engine) *)
  import_fastapi_uvicorn : option exn;    (* the imports of start_health_check *)
  create_async_engine : option exn;       (* the module body of app.database *)
  engine_start : option exn;              (* await trading_engine.start() *)
  engine_stop : option exn;               (* await trading_engine.stop() *)
  engine_stop_awaits : nat;               (* the times stop() yields to the event loop *)
  send_notification : notification → option exn;
  sleep_loop : option exn                 (* what ends the sleep loop, if anything does *)
}.

(** The attributes of [self]. *)
Record ScalpingBot := {
  config : TradingConfig;
  trading_engine : bool;                  (* hasattr(self, 'trading_engine') *)
  health_check_port : Z
}.

(** The text of a list of strings in an f-string. *)
Definition repr_list (l : list string) : string :=
  String.append "[" (String.append (String.concat ", " (quote <$> l)) "]").

(** ["=" * 60] *)
Definition banner : string := String.concat "" (replicate 60 "=").

Section Supervisor.
Variable c : collaborators.
(** The environment when [app.config] is imported, and the [.env]
    file. *)
Variables env0 dotenv : environ.

(** [ScalpingBot._validate_config] *)
Definition _validate_config (env : environ) : M unit :=
  let required_vars := ["BYBIT_API_KEY"; "BYBIT_API_SECRET"] in
  let missing := List.filter (unset_or_empty env) required_vars in
  match missing with
  | [] => mret ()
  | _ =>
      log ERROR (String.append "Missing required environment variables: " (repr_list missing));;
      sys_exit 1
  end.

(** [ScalpingBot.__init__] *)
Definition ScalpingBot_init : M ScalpingBot :=
  let env := load_dotenv dotenv env0 in
  cfg ← lift (from_env (py_int c) (py_float c) env0 env);
  _validate_config env;;
  call (new_TradingEngine c);;
  emit (Constructed EngineLoop);;
  call (new_TelegramBot c);;
  emit (Constructed Notifier);;
  emit (SignalHandler SIGINT);;
  emit (SignalHandler SIGTERM);;
  port ← lift (int_getenv (py_int c) env "HEALTH_CHECK_PORT" 8080);
  mret {| config := cfg; trading_engine := true; health_check_port := port |}.

(** [ScalpingBot.shutdown] *)
Definition shutdown (self : ScalpingBot) : M unit :=
  log INFO "Shutting down trading bot...";;
  (if trading_engine self
   then emit (Stop EngineLoop);; call (engine_stop c)
   else mret ());;
  log INFO "Shutdown complete";;
  sys_exit 0.

(** [ScalpingBot.start_health_check] *)
Definition start_health_check (self : ScalpingBot) : M unit :=
  call (import_fastapi_uvicorn c);;
  emit (Start HealthEndpoint);;
  log INFO (String.append "Health check server started on port "
              (pretty (health_check_port self))).

(** [from app.database import init_db; await init_db()] *)
Definition import_and_init_db : M unit :=
  cfg ← lift (from_env (py_int c) (py_float c) env0 (load_dotenv dotenv env0));
  call (create_async_engine c);;
  on_disk (init_db (database_target (parse_url c) cfg)).

Definition telegram_configured (self : ScalpingBot) : bool :=
  truthy (TELEGRAM_BOT_TOKEN (config self)) && truthy (TELEGRAM_CHAT_ID (config self)).

(** The [try] block of [ScalpingBot.run]. *)
Definition run_body (self : ScalpingBot) : M unit :=
  log INFO banner;;
  log INFO "Starting High Frequency Scalping Bot";;
  log INFO (String.append "Environment: "
              (if BYBIT_TESTNET (config self) then "TESTNET" else "LIVE"));;
  log INFO (String.append "Trading Symbol: " (SYMBOL (config self)));;
  log INFO (String.append "Leverage: " (String.append (pretty (LEVERAGE (config self))) "x"));;
  log INFO banner;;
  start_health_check self;;
  import_and_init_db;;
  (if truthy (TELEGRAM_BOT_TOKEN (config self))
   then emit (Start Notifier);; log INFO "Telegram bot started"
   else log WARNING "Telegram bot token not configured");;
  emit (Start EngineLoop);;
  call (engine_start c);;
  (if telegram_configured self
   then emit (Notify (BotStarted (BYBIT_TESTNET (config self)) (SYMBOL (config self))
                        (LEVERAGE (config self)) (now c)));;
        call (send_notification c
                (BotStarted (BYBIT_TESTNET (config self)) (SYMBOL (config self))
                   (LEVERAGE (config self)) (now c)))
   else mret ());;
  log INFO "Bot is now running. Press Ctrl+C to stop.";;
  (* while True: await asyncio.sleep(3600) *)
  match sleep_loop c with
  | Some e => raise e
  | None => forever
  end.

(** [ScalpingBot.run] *)
Definition run (self : ScalpingBot) : M unit :=
  try_except (run_body self)
    (except_Exception (λ e,
       log ERROR (String.append "Fatal error: " (str e));;
       (if telegram_configured self
        then emit (Notify (BotCrashed (substring 0 200 (str e))));;
             call (send_notification c (BotCrashed (substring 0 200 (str e))))
        else mret ());;
       shutdown self)).

(** [main()] *)
Definition main : M unit :=
  try_except (bot ← ScalpingBot_init; run bot)
    (λ e, match e with
          | KeyboardInterrupt => Some (log INFO "Bot stopped by user")
          | _ =>
              except_Exception (λ e,
                log ERROR (String.append "Application failed to start: " (str e));;
                sys_exit 1) e
          end).
End Supervisor.

(** The exit status of the process, once [main] has ended. *)
Definition exit_status (o : outcome unit) : option Z :=
  match o with
  | Returns _ => Some 0
  | Raises (SystemExit code) => Some code
  | Raises KeyboardInterrupt => Some 130
  | Raises _ => Some 1
  | Forever => None
  end.

Definition fresh (d : storage) : world := {| trace := []; disk := d |}.

(** *** Signals and the event loop *)

(** A [shutdown()] coroutine that [create_task] has handed to the
    event loop. *)
Inductive shutdown_task :=
| Scheduled                       (* created, not run yet *)
| InEngineStop (yields : nat)     (* suspended in [await trading_engine.stop()] *)
| Failed (e : exn)                (* ended by an exception of [stop()] *)
| Completed.                      (* reached [sys.exit(0)] *)

#[global] Instance shutdown_task_eq_dec : EqDecision shutdown_task.
Proof. solve_decision. Defined.

(** The running event loop, as far as shutdown goes: the shutdown
    tasks, what has happened, and the exit status once [sys.exit] has
    been reached. *)
Record event_loop := {
  tasks : list shutdown_task;
  seen : list event;
  exited : option Z
}.

Definition running : event_loop := {| tasks := []; seen := []; exited := None |}.

(** What can happen next: a signal arrives, or the loop gives task [i]
    its turn. *)
Inductive action :=
| Signal (signum : Z)
| Resume (i : nat).

Definition is_signal (a : action) : bool :=
  match a with Signal _ => true | Resume _ => false end.

Section EventLoop.
Variable c : collaborators.

(** [ScalpingBot.signal_handler]: log, then
    [asyncio.create_task(self.shutdown())]. *)
Definition signal_handler (signum : Z) (l : event_loop) : event_loop :=
  {| tasks := tasks l ++ [Scheduled];
     seen := seen l ++ [Log INFO (String.append "Received signal "
                          (String.append (pretty signum) ", initiating graceful shutdown..."))];
     exited := exited l |}.

(** Task [i] goes on inside [stop()], with [yields] suspensions
    left; when [stop()] has returned, [shutdown] logs and exits.  An
    [Exception] of [stop()] ends the task and stays in it; the loop
    raises a [SystemExit] or a [KeyboardInterrupt] of a task again,
    out of [asyncio.run] and into [main]. *)
Definition continue_stop (i : nat) (yields : nat) (l : event_loop) : event_loop :=
  match yields with
  | S n => {| tasks := <[i := InEngineStop n]> (tasks l); seen := seen l; exited := exited l |}
  | O =>
      match engine_stop c with
      | Some e =>
          {| tasks := <[i := Failed e]> (tasks l);
             seen := seen l ++ match e with
                               | KeyboardInterrupt => [Log INFO "Bot stopped by user"]
                               | _ => []
                               end;
             exited := match e with
                       | SystemExit code => Some code
                       | KeyboardInterrupt => Some 0
                       | _ => exited l
                       end |}
      | None =>
          {| tasks := <[i := Completed]> (tasks l);
             seen := seen l ++ [Log INFO "Shutdown complete"];
             exited := Some 0 |}
      end
  end.

(** The loop runs task [i] up to its next suspension.  The handler is
    installed after [self.trading_engine] is set, so the attribute is
    there when a shutdown task runs. *)
Definition resume (i : nat) (l : event_loop) : event_loop :=
  match tasks l !! i with
  | Some Scheduled =>
      continue_stop i (engine_stop_awaits c)
        {| tasks := tasks l;
           seen := seen l ++ [Log INFO "Shutting down trading bot..."; Stop EngineLoop];
           exited := exited l |}
  | Some (InEngineStop n) => continue_stop i n l
  | _ => l
  end.

(** Once [sys.exit] has been reached the loop runs no more of the
    program.  A signal is one that has reached the bot's handler. *)
Definition step (l : event_loop) (a : action) : event_loop :=
  match exited l with
  | Some _ => l
  | None =>
      match a with
      | Signal signum => signal_handler signum l
      | Resume i => resume i l
      end
  end.

Definition steps (l : event_loop) (schedule : list action) : event_loop :=
  foldl step l schedule.
End EventLoop.

(** The shutdown tasks that have not run yet. *)
Definition scheduled (l : event_loop) : nat :=
  length (filter (λ t, t = Scheduled) (tasks l)).

(** The teardown sequences a run has gone into: one for each [stop]
    sent to the engine. *)
Definition teardowns (l : event_loop) : nat :=
  length (stops (seen l)).

(** ** Sample data *)

Definition open_trade : TradeLog.row :=
  TradeLog.merge
    [(TradeLog.id, VStr "t1"); (TradeLog.status, VStr "open");
     (TradeLog.quantity, VFloat (Finite (1 # 1000))); (TradeLog.opened_at, VDateTime 100)]
    TradeLog.null_row.

Definition closed_trade : TradeLog.row :=
  TradeLog.merge
    [(TradeLog.id, VStr "t1"); (TradeLog.status, VStr "closed");
     (TradeLog.quantity, VFloat (Finite (1 # 1000))); (TradeLog.opened_at, VDateTime 100);
     (TradeLog.closed_at, VDateTime 200)]
    TradeLog.null_row.

Definition trade_at (trade_id : string) (t : Z) : TradeLog.row :=
  TradeLog.merge
    [(TradeLog.id, VStr trade_id); (TradeLog.status, VStr "open");
     (TradeLog.opened_at, VDateTime t)]
    TradeLog.null_row.

(** A database that keeps a value of its column's type as it is
    given, and refuses every other value. *)
Definition of_type (t : TradeLog.coltype) (v : pyval) : bool :=
  match t, v with
  | _, VNone => true
  | TradeLog.String_, VStr _ => true
  | TradeLog.Float_, VFloat (Finite _) => true
  | TradeLog.Integer_, VInt z => bool_decide (- 2 ^ 31 ≤ z < 2 ^ 31)
  | TradeLog.DateTime_, VDateTime _ => true
  | TradeLog.JSON_, VJson (JObj _) => true
  | _, _ => false
  end.

Definition typed_binds : TradeLog.binder :=
  λ a, if forallb (λ cv, of_type (TradeLog.type_of cv.1) cv.2) a then Return a
       else Raise (StatementError "value of another type than the column's").

(** A driver that, as [sqlite3] does, cannot bind an integer that
    does not fit 64 bits; of the other values only those of
    [typed_binds] are looked at here. *)
Definition int64_binds : TradeLog.binder :=
  λ a, if forallb (λ cv, match cv.2 with
                         | VInt z => bool_decide (- 2 ^ 63 ≤ z < 2 ^ 63)
                         | _ => true
                         end) a
       then typed_binds a
       else Raise (OverflowError "Python int too large to convert to SQLite INTEGER").

(** A class with no attributes but its columns. *)
Definition columns_only : string → pyval → option exn :=
  λ k _, Some (TradeLog.invalid_keyword k).




(** A working directory with nothing in it, and one with [data/]. *)
Definition no_data_dir : storage := {| nodes := ∅; tables := ∅ |}.
Definition with_data_dir : storage := {| nodes := {[ ["data"] := Directory ]}; tables := ∅ |}.

(** Collaborators whose calls all return. *)
Definition quiet : collaborators := {|
  py_int := λ _, None;
  py_float := λ _, None;
  parse_url := λ _, OtherDatabase;
  now := 0;
  new_TradingEngine := None;
  new_TelegramBot := None;
  import_fastapi_uvicorn := None;
  create_async_engine := None;
  engine_start := None;
  engine_stop := None;
  engine_stop_awaits := 0;
  send_notification := λ _, None;
  sleep_loop := None
|}.

(** The same, with an engine that fails to start. *)
Definition engine_fails_to_start : collaborators := {|
  py_int := py_int quiet;
  py_float := py_float quiet;
  parse_url := parse_url quiet;
  now := now quiet;
  new_TradingEngine := None;
  new_TelegramBot := None;
  import_fastapi_uvicorn := None;
  create_async_engine := None;
  engine_start := Some (RuntimeError "exchange unreachable");
  engine_stop := None;
  engine_stop_awaits := 0;
  send_notification := λ _, None;
  sleep_loop := None
|}.

(** The same as [quiet], with an error raised inside the sleep loop. *)
Definition loop_fails : collaborators := {|
  py_int := py_int quiet;
  py_float := py_float quiet;
  parse_url := parse_url quiet;
  now := now quiet;
  new_TradingEngine := None;
  new_TelegramBot := None;
  import_fastapi_uvicorn := None;
  create_async_engine := None;
  engine_start := None;
  engine_stop := None;
  engine_stop_awaits := 0;
  send_notification := λ _, None;
  sleep_loop := Some (RuntimeError "event loop broken")
|}.

(** The same as [quiet], with an engine whose [stop()] waits once. *)
Definition slow_stop : collaborators := {|
  py_int := py_int quiet;
  py_float := py_float quiet;
  parse_url := parse_url quiet;
  now := now quiet;
  new_TradingEngine := None;
  new_TelegramBot := None;
  import_fastapi_uvicorn := None;
  create_async_engine := None;
  engine_start := None;
  engine_stop := None;
  engine_stop_awaits := 1;
  send_notification := λ _, None;
  sleep_loop := None
|}.

(** A Render deployment, fully configured. *)
Definition render_env : environ :=
  list_to_map
    [("BYBIT_API_KEY", "key"); ("BYBIT_API_SECRET", "secret"); ("RENDER", "true");
     ("TELEGRAM_BOT_TOKEN", "token"); ("TELEGRAM_CHAT_ID", "42")].

(** ** Notions for the further properties *)

(** The variable [name] is set to a text that [parse] does not take. *)
Definition rejected {A} (parse : string → option A) (env : environ) (name : string) : Prop :=
  ∃ s, getenv env name = Some s ∧ parse s = None.

(** The subsystems a trace starts, in order. *)
Definition starts (tr : list event) : list subsystem :=
  omap (λ e, match e with Start s => Some s | _ => None end) tr.


(** A computation that, from any state, adds to the trace only events
    that satisfy [P]. *)
Definition adds {A} (P : event → Prop) (m : M A) : Prop :=
  ∀ w, ∃ evs, trace (m w).2 = trace w ++ evs ∧ Forall P evs.

(** A computation that does not come back to its caller: it raises
    or goes on for ever. *)
Definition never_returns {A} (m : M A) : Prop :=
  ∀ w a, (m w).1 ≠ Returns a.

(** Collaborators as [quiet], with an engine whose [stop()] raises. *)
Definition stop_fails : collaborators := {|
  py_int := py_int quiet;
  py_float := py_float quiet;
  parse_url := parse_url quiet;
  now := now quiet;
  new_TradingEngine := None;
  new_TelegramBot := None;
  import_fastapi_uvicorn := None;
  create_async_engine := None;
  engine_start := None;
  engine_stop := Some (RuntimeError "stop failed");
  engine_stop_awaits := 0;
  send_notification := λ _, None;
  sleep_loop := None
|}.

(** Collaborators as [engine_fails_to_start], with a Telegram bot
    that cannot send. *)
Definition telegram_down : collaborators := {|
  py_int := py_int quiet;
  py_float := py_float quiet;
  parse_url := parse_url quiet;
  now := now quiet;
  new_TradingEngine := None;
  new_TelegramBot := None;
  import_fastapi_uvicorn := None;
  create_async_engine := None;
  engine_start := Some (RuntimeError "exchange unreachable");
  engine_stop := None;
  engine_stop_awaits := 0;
  send_notification := λ _, Some (RuntimeError "telegram unreachable");
  sleep_loop := None
|}.

(** * Properties *)

(** ** The settings store *)

Section Settings.
Import BotSettings.

Lemma foldr_max_ge (i : Z) (ids : list Z) :
  i ≤ foldr Z.max i ids ∧ ∀ z, z ∈ ids → z ≤ foldr Z.max i ids.
Proof.
  induction ids as [|a l [IH1 IH2]]; simpl.
  - split; [lia|]. intros z Hz. inversion Hz.
  - split; [lia|]. intros z Hz. apply elem_of_cons in Hz as [->|Hz]; [lia|].
    specialize (IH2 z Hz). lia.
Qed.

Lemma next_id_fresh (tbl : table) : next_id tbl ∉ id <$> tbl.
Proof.
  unfold next_id. destruct (id <$> tbl) as [|i ids]; [by intros H; inversion H|].
  destruct (foldr_max_ge i ids) as [H1 H2].
  intros Hin. apply elem_of_cons in Hin as [Heq|Hin]; [lia|].
  specialize (H2 _ Hin). lia.
Qed.

Lemma where_key_nil (k : string) (tbl : table) :
  where_key k tbl = [] ↔ k ∉ key <$> tbl.
Proof.
  unfold where_key. induction tbl as [|r tbl IH].
  - split; [intros _ H; inversion H | done].
  - rewrite filter_cons, fmap_cons. destruct (decide (key r = k)) as [Heq|Hne].
    + split; [discriminate|]. intros H. exfalso. apply H. subst k. left.
    + rewrite IH, not_elem_of_cons. split; [intros ?; split; congruence | intros [_ ?]; done].
Qed.

Lemma insert_fresh (k : string) (v : json) (now : Z) (tbl : table) :
  where_key k tbl = [] →
  insert k v now tbl =
    Return (tbl ++ [{| id := next_id tbl; key := k; value := v; updated_at := now |}]).
Proof.
  intros Hnil. unfold insert. apply where_key_nil in Hnil.
  destruct (decide (k ∈ key <$> tbl)); [done|]. simpl.
  destruct (decide (next_id tbl ∈ id <$> tbl)) as [Hin|]; [|done].
  exfalso. by apply (next_id_fresh tbl).
Qed.


Lemma where_key_update_value (k : string) (v : json) (now : Z) (tbl : table) :
  where_key k (update_value k v now tbl) =
    (λ r, {| id := id r; key := key r; value := v; updated_at := now |}) <$> where_key k tbl.
Proof.
  unfold where_key, update_value. induction tbl as [|r tbl IH]; [done|].
  rewrite fmap_cons, !filter_cons. destruct (decide (key r = k)) as [Heq|Hne].
  - simpl. rewrite decide_True by done. by rewrite IH.
  - rewrite decide_False by done. by rewrite IH.
Qed.









Lemma get_after_set (now : Z) (k : string) (v : json) (tbl : table) :
  get_bot_setting k (set_bot_setting now k v tbl).2 = v.
Proof.
  unfold get_bot_setting, set_bot_setting.
  destruct (head (where_key k tbl)) as [r0|] eqn:Hhead.
  - simpl. rewrite where_key_update_value.
    destruct (where_key k tbl); [done|]. done.
  - apply head_None in Hhead. rewrite (insert_fresh _ _ _ _ Hhead). simpl.
    unfold where_key in *. rewrite filter_app, Hhead. simpl.
    rewrite filter_cons. simpl. by rewrite decide_True by done.
Qed.

(** C10.  A key whose stored value is [None] reads the same as a key
    that has no row, in any table: [get_bot_setting] answers [None]
    for both.  So does a key that [set_bot_setting] has just set to
    [None]. *)
Theorem get_bot_setting_null_as_absent (now : Z) (k k' : string) (tbl tbl' : table) :
  where_key k' tbl' = [] →
  (∀ r, head (where_key k tbl) = Some r → value r = JNull →
        get_bot_setting k tbl = get_bot_setting k' tbl') ∧
  get_bot_setting k (set_bot_setting now k JNull tbl).2 = get_bot_setting k' tbl'.
Proof.
  intros Habsent.
  assert (Hnone : get_bot_setting k' tbl' = JNull)
    by (unfold get_bot_setting; by rewrite Habsent).
  rewrite Hnone. split.
  - intros r Hr Hv. unfold get_bot_setting. by rewrite Hr.
  - apply get_after_set.
Qed.

Lemma get_bot_setting_null_as_absent_witness :
  where_key "flag" [] = [] ∧
  get_bot_setting "flag" (set_bot_setting 5 "flag" JNull []).2 = get_bot_setting "flag" [].
Proof.
  split; [reflexivity|].
  apply (get_bot_setting_null_as_absent 5 "flag" "flag" [] []). reflexivity.
Defined.
End Settings.

(** ** The trade ledger *)

Section Ledger.
Import TradeLog.

Lemma merge_from (a : assignments) (r : row) (o : option pyval) (c : column) :
  foldl (λ r' cv, set cv.1 cv.2 r') r a c =
    default (r c) (foldl (λ o cv, if decide (c = cv.1) then Some cv.2 else o) None a).
Proof.
  revert r. induction a as [|[c' v] a IH] using rev_ind; intros r; [done|].
  rewrite !foldl_app. simpl. unfold set at 1.
  destruct (decide (c = c')); [done|]. apply IH.
Qed.

(** A merged row has the supplied value in each column the
    assignments name and the old value in every other column. *)
Lemma merge_supplied (a : assignments) (r : row) (c : column) :
  merge a r c = default (r c) (supplied a c).
Proof. apply (merge_from a r None c). Qed.

Lemma supplied_None (a : assignments) (c : column) :
  c ∉ a.*1 → supplied a c = None.
Proof.
  unfold supplied. induction a as [|[c' v] a IH] using rev_ind; [done|].
  rewrite fmap_app, foldl_app. simpl. intros Hnotin.
  apply not_elem_of_app in Hnotin as [Ha Hc].
  destruct (decide (c = c')) as [->|]; [|by apply IH].
  exfalso. apply Hc. left.
Qed.

Lemma merge_keeps_pk (a : assignments) (r : row) :
  id ∉ a.*1 → pk (merge a r) = pk r.
Proof.
  intros Hid. unfold pk. rewrite merge_supplied, supplied_None; done.
Qed.

Lemma updated_keeps_pk (trade_id : string) (a : assignments) (tbl : table) :
  id ∉ a.*1 → pk <$> (updated trade_id a <$> tbl) = pk <$> tbl.
Proof.
  intros Hid. rewrite <- list_fmap_compose. apply list_fmap_ext.
  intros i r _. simpl. unfold updated.
  destruct (decide (has_id trade_id r)); [by apply merge_keeps_pk|done].
Qed.

Lemma primary_key_ok_pks (tbl tbl' : table) :
  pk <$> tbl' = pk <$> tbl → primary_key_ok tbl → primary_key_ok tbl'.
Proof.
  unfold primary_key_ok. intros Heq [Hall Hnd]. split; [|by rewrite Heq].
  apply (Forall_fmap pk is_Some tbl'). rewrite Heq.
  apply (Forall_fmap pk is_Some tbl). exact Hall.
Qed.

Lemma rowcount_pos (trade_id : string) (tbl : table) :
  rowcount trade_id tbl > 0 ↔ ∃ r, r ∈ tbl ∧ has_id trade_id r.
Proof.
  unfold rowcount. split.
  - intros Hpos. destruct (filter (has_id trade_id) tbl) as [|r l] eqn:Hf; [simpl in Hpos; lia|].
    assert (Hr : r ∈ filter (has_id trade_id) tbl) by (rewrite Hf; left).
    apply list_elem_of_filter in Hr as [? ?]. by exists r.
  - intros (r & Hin & Hid).
    assert (Hr : r ∈ filter (has_id trade_id) tbl) by (by apply list_elem_of_filter).
    destruct (filter (has_id trade_id) tbl); [inversion Hr|simpl; lia].
Qed.

Lemma updated_no_match (trade_id : string) (a : assignments) (tbl : table) :
  (∀ r, r ∈ tbl → ¬ has_id trade_id r) → updated trade_id a <$> tbl = tbl.
Proof.
  induction tbl as [|r tbl IH]; intros Hno; [done|].
  rewrite fmap_cons. unfold updated at 1.
  rewrite decide_False by (apply Hno; left).
  f_equal. apply IH. intros r' Hr'. apply Hno. by right.
Qed.

Lemma update_trade_unfold (binds : binder) (trade_id : string)
    (update_data : list (string * pyval)) (a b : assignments) (tbl : table) :
  primary_key_ok tbl → update_data ≠ [] →
  values update_data = Return a → binds a = Return b → id ∉ b.*1 →
  update_trade binds trade_id update_data tbl =
    (Return (bool_decide (rowcount trade_id tbl > 0)), updated trade_id b <$> tbl).
Proof.
  intros Hpk Hne Hval Hbind Hid. unfold update_trade.
  destruct update_data as [|kv rest]; [done|]. rewrite Hval, Hbind.
  rewrite decide_True; [done|].
  eapply primary_key_ok_pks; [|exact Hpk]. by apply updated_keeps_pk.
Qed.

Lemma updated_lookup (trade_id : string) (a : assignments) (tbl : table) (i : nat) (r : row) :
  tbl !! i = Some r →
  (updated trade_id a <$> tbl) !! i = Some (updated trade_id a r) ∧
  ∀ c, updated trade_id a r c =
         if decide (has_id trade_id r) then default (r c) (supplied a c) else r c.
Proof.
  intros Hi. split.
  - by rewrite list_lookup_fmap, Hi.
  - intros col. unfold updated. destruct (decide (has_id trade_id r)); [|done].
    apply merge_supplied.
Qed.

(** C2, as the code has it.  When the dictionary is not empty, names
    only columns of the table, leaves the primary key alone and holds
    values that the database stores as they are given, [update_trade]
    does not fail, whether a row matches or not.  It answers [True]
    exactly when a row has the id; the row with the id takes the
    supplied values in the named columns and keeps every other column,
    the other rows are as they were; and when no row has the id the
    answer is [False] and the table is unchanged. *)
Theorem update_trade_merges (binds : binder) (trade_id : string)
    (update_data : list (string * pyval)) (a : assignments) (tbl : table) :
  primary_key_ok tbl → update_data ≠ [] →
  values update_data = Return a → binds a = Return a → id ∉ a.*1 →
  ∃ (answer : bool) (tbl' : table),
    update_trade binds trade_id update_data tbl = (Return answer, tbl') ∧
    (answer = true ↔ ∃ r, r ∈ tbl ∧ has_id trade_id r) ∧
    length tbl' = length tbl ∧
    (∀ i r, tbl !! i = Some r →
       ∃ r', tbl' !! i = Some r' ∧
         ∀ col, r' col = if decide (has_id trade_id r)
                         then default (r col) (supplied a col) else r col) ∧
    ((∀ r, r ∈ tbl → ¬ has_id trade_id r) → answer = false ∧ tbl' = tbl).
Proof.
  intros Hpk Hne Hval Hbind Hid.
  exists (bool_decide (rowcount trade_id tbl > 0)), (updated trade_id a <$> tbl).
  split; [by apply (update_trade_unfold _ _ _ a)|].
  split; [rewrite bool_decide_eq_true; apply rowcount_pos|].
  split; [apply length_fmap|]. split.
  - intros i r Hi. exists (updated trade_id a r). by apply updated_lookup.
  - intros Hno. split; [|by apply updated_no_match].
    apply bool_decide_eq_false. rewrite rowcount_pos.
    intros (r & Hin & Hr). by apply (Hno r).
Qed.

Lemma primary_key_ok_singleton (r : row) (s : string) :
  r id = VStr s → primary_key_ok [r].
Proof.
  intros Hid. split.
  - constructor; [|constructor]. unfold pk. rewrite Hid. by eexists.
  - apply NoDup_singleton.
Qed.

Lemma update_trade_merges_witness :
  ∃ (answer : bool) (tbl' : table),
    update_trade typed_binds "t1"
      [("status", VStr "closed"); ("pnl", VFloat (Finite (25 # 2)))] [open_trade]
      = (Return answer, tbl') ∧
    (answer = true ↔ ∃ r, r ∈ [open_trade] ∧ has_id "t1" r) ∧
    length tbl' = length [open_trade] ∧
    (∀ i r, [open_trade] !! i = Some r →
       ∃ r', tbl' !! i = Some r' ∧
         ∀ col, r' col = if decide (has_id "t1" r)
                         then default (r col)
                                (supplied [(status, VStr "closed");
                                           (pnl, VFloat (Finite (25 # 2)))] col)
                         else r col) ∧
    ((∀ r, r ∈ [open_trade] → ¬ has_id "t1" r) → answer = false ∧ tbl' = [open_trade]).
Proof.
  apply (update_trade_merges typed_binds "t1"
           [("status", VStr "closed"); ("pnl", VFloat (Finite (25 # 2)))]
           [(status, VStr "closed"); (pnl, VFloat (Finite (25 # 2)))] [open_trade]).
  - apply (primary_key_ok_singleton _ "t1"). reflexivity.
  - discriminate.
  - reflexivity.
  - reflexivity.
  - simpl. intros H. apply elem_of_cons in H as [H|H]; [discriminate|].
    apply elem_of_cons in H as [H|H]; [discriminate|]. inversion H.
Defined.

(** C2, as the claim has it, fails: with no row for the id the call
    does not fail, it answers [False]. *)
Lemma update_trade_no_NotFound :
  ¬ (∀ (binds : binder) (trade_id : string) (update_data : list (string * pyval))
       (tbl : table),
       (∀ r, r ∈ tbl → ¬ has_id trade_id r) →
       ∃ e, (update_trade binds trade_id update_data tbl).1 = Raise e).
Proof.
  intros H. destruct (H typed_binds "t1" [("status", VStr "closed")] []) as [e He].
  - intros r Hr. inversion Hr.
  - vm_compute in He. discriminate He.
Qed.

(** C6, as the code has it.  [update_trade] looks at no status: when
    the dictionary names only columns of the table, [status] among
    them, leaves the primary key alone and holds values that the
    database stores as they are given, the row with the id gets the
    supplied status whatever its status was, and the call answers
    [True]. *)
Theorem update_trade_sets_status (binds : binder) (trade_id : string)
    (update_data : list (string * pyval)) (a : assignments) (v : pyval) (tbl : table)
    (i : nat) (r : row) :
  primary_key_ok tbl → update_data ≠ [] →
  values update_data = Return a → binds a = Return a → id ∉ a.*1 →
  supplied a status = Some v →
  tbl !! i = Some r → has_id trade_id r →
  ∃ (tbl' : table) (r' : row),
    update_trade binds trade_id update_data tbl = (Return true, tbl') ∧
    tbl' !! i = Some r' ∧ r' status = v.
Proof.
  intros Hpk Hne Hval Hbind Hid Hsup Hi Hr.
  exists (updated trade_id a <$> tbl), (updated trade_id a r).
  rewrite (update_trade_unfold _ _ _ a a) by done.
  destruct (updated_lookup trade_id a tbl i r Hi) as [Hl Hc].
  split; [|split; [done|]].
  - f_equal. f_equal. apply bool_decide_eq_true. apply rowcount_pos.
    exists r. split; [|done]. by eapply list_elem_of_lookup_2.
  - rewrite Hc, decide_True by done. by rewrite Hsup.
Qed.

Lemma update_trade_sets_status_witness :
  ∃ (tbl' : table) (r' : row),
    update_trade typed_binds "t1" [("status", VStr "open")] [closed_trade]
      = (Return true, tbl') ∧
    tbl' !! 0%nat = Some r' ∧ r' status = VStr "open".
Proof.
  apply (update_trade_sets_status typed_binds "t1" [("status", VStr "open")]
           [(status, VStr "open")] (VStr "open") [closed_trade] 0 closed_trade).
  - apply (primary_key_ok_singleton _ "t1"). reflexivity.
  - discriminate.
  - reflexivity.
  - reflexivity.
  - simpl. intros H. apply elem_of_cons in H as [H|H]; [discriminate|]. inversion H.
  - reflexivity.
  - reflexivity.
  - reflexivity.
Defined.

(** C6, as the claim has it, fails: a closed trade is set back to
    open, the call is not rejected and the status does not stay. *)
Lemma update_trade_reopens_closed :
  ¬ (∀ (binds : binder) (trade_id : string) (update_data : list (string * pyval))
       (tbl : table) (i : nat) (r : row),
       tbl !! i = Some r → has_id trade_id r →
       r status = VStr "closed" ∨ r status = VStr "cancelled" →
       match update_trade binds trade_id update_data tbl with
       | (Raise _, tbl') => tbl' = tbl
       | (Return _, tbl') => ∃ r', tbl' !! i = Some r' ∧ r' status = r status
       end).
Proof.
  intros H.
  specialize (H typed_binds "t1" [("status", VStr "open")] [closed_trade] 0%nat closed_trade
                eq_refl eq_refl (or_introl eq_refl)).
  vm_compute in H. destruct H as (r' & Hr' & Hs).
  inversion Hr'. subst r'. discriminate Hs.
Qed.
End Ledger.

(** ** The recent trades *)

Section Recent.
Import TradeLog.
Variable nulls_first : bool.

#[local] Instance opened_desc_total : Total (opened_desc nulls_first).
Proof.
  intros r1 r2. unfold opened_desc, desc.
  destruct (opened r1), (opened r2), nulls_first; simpl; auto; lia.
Qed.

#[local] Instance opened_desc_trans : Transitive (opened_desc nulls_first).
Proof.
  intros r1 r2 r3. unfold opened_desc, desc.
  destruct (opened r1), (opened r2), (opened r3), nulls_first; simpl; auto;
    try lia; try discriminate.
Qed.


(** The query has an answer on every table: the stable sort gives
    one. *)
Lemma get_recent_trades_answers (limit : nat) (tbl : table) :
  get_recent_trades nulls_first limit tbl (get_recent_trades_stable nulls_first limit tbl).
Proof.
  exists (merge_sort (opened_desc nulls_first) tbl). split; [|done]. split.
  - symmetry. apply merge_sort_Permutation.
  - apply StronglySorted_merge_sort; apply _.
Qed.






(** A negative limit is no bound: where the database takes it as no
    limit, as SQLite does, the call gives every row of the table; where
    the database refuses it, the call raises.  And a limit that does
    not fit 64 bits cannot be bound. *)
Lemma get_recent_trades_no_count (lim : limits) (limit : Z) (tbl : table)
    (answer : result table) :
  get_recent_trades_limit nulls_first lim limit tbl answer →
  (- 2 ^ 63 ≤ limit < 0 → negative_limit lim = None →
     ∃ rows, answer = Return rows ∧ tbl ≡ₚ rows ∧
             StronglySorted (opened_desc nulls_first) rows) ∧
  (- 2 ^ 63 ≤ limit < 0 → ∀ e, negative_limit lim = Some e → answer = Raise e) ∧
  (¬ (- 2 ^ 63 ≤ limit < 2 ^ 63) → answer = Raise (oversized_limit lim)).
Proof.
  unfold get_recent_trades_limit. intros Hq. split; [|split].
  - intros Hneg Hnone. rewrite decide_True, decide_False, Hnone in Hq by lia.
    destruct Hq as (rows & -> & Hp & Hs). by exists rows.
  - intros Hneg e He. by rewrite decide_True, decide_False, He in Hq by lia.
  - intros Hbig. by rewrite decide_False in Hq.
Qed.
End Recent.

Lemma three_trades_answer :
  get_recent_trades false 3
    [trade_at "a" 1; trade_at "b" 2; trade_at "c" 3]
    [trade_at "c" 3; trade_at "b" 2; trade_at "a" 1].
Proof.
  exists [trade_at "c" 3; trade_at "b" 2; trade_at "a" 1]. split; [|reflexivity]. split.
  - apply perm_trans with [trade_at "b" 2; trade_at "a" 1; trade_at "c" 3]; [apply perm_swap|].
    apply perm_trans with [trade_at "b" 2; trade_at "c" 3; trade_at "a" 1];
      [apply perm_skip, perm_swap|].
    apply perm_swap.
  - repeat constructor; unfold opened_desc; simpl; lia.
Defined.




(** The query fixes no order among ties: two trades opened at the
    same time may come back in the reverse of their insertion order. *)
Lemma get_recent_trades_ties_any_order :
  ¬ (∀ (nulls_first : bool) (limit : nat) (tbl rows : TradeLog.table),
       get_recent_trades nulls_first limit tbl rows →
       (length rows ≤ limit)%nat ∧
       StronglySorted (opened_desc nulls_first) rows ∧
       ∀ i j r r', rows !! i = Some r → rows !! j = Some r' → (i < j)%nat →
         TradeLog.opened r = TradeLog.opened r' →
         ∃ i' j', tbl !! i' = Some r ∧ tbl !! j' = Some r' ∧ (i' < j')%nat).
Proof.
  intros H.
  destruct (H false 2%nat [trade_at "a" 7; trade_at "b" 7] [trade_at "b" 7; trade_at "a" 7])
    as (_ & _ & Hties).
  - exists [trade_at "b" 7; trade_at "a" 7]. split; [|reflexivity]. split.
    + apply perm_swap.
    + repeat constructor; unfold opened_desc; simpl; lia.
  - destruct (Hties 0%nat 1%nat (trade_at "b" 7) (trade_at "a" 7))
      as (i' & j' & Hi & Hj & Hlt); try reflexivity; try lia.
    destruct i' as [|[|i']]; simpl in Hi.
    + injection Hi as Hi. apply (f_equal (λ r, r TradeLog.id)) in Hi. discriminate Hi.
    + destruct j' as [|[|j']]; [lia|lia|]. simpl in Hj. discriminate Hj.
    + discriminate Hi.
Qed.


(** ** Schema initialization *)

Lemma create_all_schema_ok (st : storage) : schema_ok (create_all st).
Proof.
  intros t Ht. unfold create_all, metadata_tables in *. simpl.
  assert (Hb : "bot_settings" ∈
            (if decide ("bot_settings" ∈ tables st) then tables st
             else {["bot_settings"]} ∪ tables st)).
  { destruct (decide ("bot_settings" ∈ tables st)); [done|].
    apply elem_of_union_l, elem_of_singleton. reflexivity. }
  destruct (decide ("trades" ∈ _)) as [Hin|Hnotin].
  - apply elem_of_cons in Ht as [->|Ht]; [exact Hin|].
    apply elem_of_cons in Ht as [->|Ht]; [exact Hb|inversion Ht].
  - apply elem_of_cons in Ht as [->|Ht].
    + apply elem_of_union_l, elem_of_singleton. reflexivity.
    + apply elem_of_cons in Ht as [->|Ht]; [|inversion Ht].
      apply elem_of_union_r. exact Hb.
Qed.

(** Tables that are there stay: running [create_all] again changes
    nothing. *)
Lemma create_all_idempotent (st : storage) : create_all (create_all st) = create_all st.
Proof.
  pose proof (create_all_schema_ok st) as Hok.
  assert (H1 : "trades" ∈ tables (create_all st)) by (apply Hok; set_solver).
  assert (H2 : "bot_settings" ∈ tables (create_all st)) by (apply Hok; set_solver).
  generalize dependent (create_all st). intros st' _ H1 H2.
  unfold create_all, metadata_tables. cbn [foldr].
  rewrite (decide_True _ _ H2), (decide_True _ _ H1). by destruct st'.
Qed.

(** When the connection opens and [data] is not a regular file,
    [init_db] returns, the schema is there and so is the directory. *)
Lemma init_db_returns (target : db_target) (st st1 : storage) :
  connect target st = Return st1 →
  nodes st1 !! ["data"] ≠ Some RegularFile →
  ∃ st', init_db target st = (Return (), st') ∧ schema_ok st' ∧
         nodes st' !! ["data"] = Some Directory.
Proof.
  intros Hc Hdata. unfold init_db. rewrite Hc. simpl.
  destruct (nodes st1 !! ["data"]) as [[|]|] eqn:Hn; [| done |].
  - eexists. split; [done|]. split; [apply create_all_schema_ok|done].
  - eexists. split; [done|]. split; [apply create_all_schema_ok|].
    simpl. apply lookup_insert_eq.
Qed.

(** C9 at the failing input.  On Render the database is the file
    [./data/trades.db]; in a working directory without [data/] the
    connection cannot open it, [init_db] raises before it reaches
    [makedirs], and the directory is still not there. *)
Theorem init_db_without_data_dir :
  ∃ cfg,
    from_env (py_int quiet) (py_float quiet) render_env render_env = Return cfg ∧
    database_target (parse_url quiet) cfg = SqliteFile ["data"; "trades.db"] ∧
    init_db (database_target (parse_url quiet) cfg) no_data_dir
      = (Raise (OperationalError "unable to open database file"), no_data_dir) ∧
    nodes no_data_dir !! ["data"] = None.
Proof.
  eexists. split; [reflexivity|]. split; [reflexivity|]. split; reflexivity.
Qed.

(** ** The supervisor *)

Lemma stops_app (tr1 tr2 : list event) : stops (tr1 ++ tr2) = stops tr1 ++ stops tr2.
Proof. unfold stops. apply omap_app. Qed.

(** C4, as the code has it.  The shutdown sequence [shutdown()]
    delivers [stop] to the engine and to nothing else: whatever the
    engine's [stop()] does, the stops once it has run are those before
    it followed by the one to the Engine Loop (none if the engine
    attribute is not set).  It delivers no [stop] to the Health
    Endpoint and none to the Notifier. *)
Theorem shutdown_stops_engine_only (c : collaborators) (self : ScalpingBot) (w : world) :
  stops (trace (shutdown c self w).2) =
    stops (trace w) ++ (if trading_engine self then [EngineLoop] else []).
Proof.
  unfold shutdown, log, emit, call, sys_exit, raise, mbind, M_bind, mret, M_ret.
  destruct (trading_engine self), (engine_stop c); simpl;
    rewrite ?stops_app; simpl; by rewrite ?app_nil_r.
Qed.

(** C4, as the claim has it, fails: the shutdown of a bot whose calls
    all return does not go on to stop the Health Endpoint and the
    Notifier. *)
Lemma shutdown_not_three_stops :
  ¬ (∀ (c : collaborators) (self : ScalpingBot) (w : world),
       trading_engine self = true →
       stops (trace (shutdown c self w).2) =
         stops (trace w) ++ [EngineLoop; HealthEndpoint; Notifier]).
Proof.
  intros H.
  specialize (H quiet
    {| config := defaults ∅; trading_engine := true; health_check_port := 8080 |}
    (fresh no_data_dir) eq_refl).
  vm_compute in H. discriminate H.
Qed.

(** The [except] block of [run]: when the [try] block raises an
    [Exception] and the notification and the engine's [stop()] return,
    [run] ends in [sys.exit(0)]. *)
Lemma run_crash_exits_zero (c : collaborators) (env0 dotenv : environ)
    (self : ScalpingBot) (w w1 : world) (e : exn) :
  run_body c env0 dotenv self w = (Raises e, w1) →
  is_Exception e = true →
  send_notification c (BotCrashed (substring 0 200 (str e))) = None →
  engine_stop c = None →
  (run c env0 dotenv self w).1 = Raises (SystemExit 0).
Proof.
  intros Hbody Hexc Hnotify Hstop.
  unfold run, try_except. rewrite Hbody. unfold except_Exception. rewrite Hexc.
  unfold shutdown, log, emit, call, sys_exit, raise, mbind, M_bind, mret, M_ret.
  rewrite Hnotify, Hstop.
  destruct (telegram_configured self), (trading_engine self); reflexivity.
Qed.

(** C3 at the failing input.  The engine fails to start, or an error
    is raised inside the sleep loop: the error is logged, the crash
    notification is sent, the engine is stopped, and the process ends
    with exit status 0. *)
Theorem fatal_error_exit_status :
  (exit_status (main engine_fails_to_start render_env ∅ (fresh with_data_dir)).1 = Some 0 ∧
   existsb is_error_log
     (trace (main engine_fails_to_start render_env ∅ (fresh with_data_dir)).2) = true ∧
   existsb is_crash_notification
     (trace (main engine_fails_to_start render_env ∅ (fresh with_data_dir)).2) = true) ∧
  (exit_status (main loop_fails render_env ∅ (fresh with_data_dir)).1 = Some 0 ∧
   existsb is_error_log
     (trace (main loop_fails render_env ∅ (fresh with_data_dir)).2) = true ∧
   existsb is_crash_notification
     (trace (main loop_fails render_env ∅ (fresh with_data_dir)).2) = true).
Proof. vm_compute. repeat split. Qed.

Lemma int_getenv_raises (pi : string → option Z) (env : environ) (name : string)
    (dflt : Z) (e : exn) :
  int_getenv pi env name dflt = Raise e → is_Exception e = true.
Proof.
  unfold int_getenv. destruct (getenv env name) as [s|]; [|discriminate].
  destruct (pi s); [discriminate|]. by intros [= <-].
Qed.

Lemma float_getenv_raises (pf : string → option Q) (env : environ) (name : string)
    (dflt : Q) (e : exn) :
  float_getenv pf env name dflt = Raise e → is_Exception e = true.
Proof.
  unfold float_getenv. destruct (getenv env name) as [s|]; [|discriminate].
  destruct (pf s); [discriminate|]. by intros [= <-].
Qed.

(** What [from_env] raises is a [ValueError], which [except Exception]
    catches. *)
Lemma from_env_raises (pi : string → option Z) (pf : string → option Q)
    (env0 env : environ) (e : exn) :
  from_env pi pf env0 env = Raise e → is_Exception e = true.
Proof.
  unfold from_env.
  destruct (int_getenv pi env "LEVERAGE" _) eqn:H1;
    [|intros [= <-]; by eapply int_getenv_raises].
  destruct (float_getenv pf env "MAX_POSITION_SIZE" _) eqn:H2;
    [|intros [= <-]; by eapply float_getenv_raises].
  destruct (float_getenv pf env "STOP_LOSS_PCT" _) eqn:H3;
    [|intros [= <-]; by eapply float_getenv_raises].
  destruct (float_getenv pf env "TAKE_PROFIT_PCT" _) eqn:H4;
    [|intros [= <-]; by eapply float_getenv_raises].
  discriminate.
Qed.

(** With a credential missing, [_validate_config] logs one error and
    exits with status 1. *)
Lemma validate_config_missing (env : environ) (w : world) :
  unset_or_empty env "BYBIT_API_KEY" = true ∨ unset_or_empty env "BYBIT_API_SECRET" = true →
  ∃ msg, _validate_config env w =
           (Raises (SystemExit 1), {| trace := trace w ++ [Log ERROR msg]; disk := disk w |}).
Proof.
  intros Hmissing. unfold _validate_config. simpl.
  destruct (unset_or_empty env "BYBIT_API_KEY"), (unset_or_empty env "BYBIT_API_SECRET");
    try (eexists; reflexivity).
  destruct Hmissing; discriminate.
Qed.

(** C8.  When the API key or the API secret is not set (or is empty)
    once the [.env] file has been loaded, the process ends with exit
    status 1, and all it has done is log one error: nothing has been
    constructed or started, and the disk is untouched. *)
Theorem missing_credentials_exit (c : collaborators) (env0 dotenv : environ) (d : storage) :
  unset_or_empty (load_dotenv dotenv env0) "BYBIT_API_KEY" = true ∨
  unset_or_empty (load_dotenv dotenv env0) "BYBIT_API_SECRET" = true →
  exit_status (main c env0 dotenv (fresh d)).1 = Some 1 ∧
  (∃ msg, trace (main c env0 dotenv (fresh d)).2 = [Log ERROR msg]) ∧
  Forall (λ e, is_start e = false) (trace (main c env0 dotenv (fresh d)).2) ∧
  disk (main c env0 dotenv (fresh d)).2 = d.
Proof.
  intros Hmissing.
  assert (H : ∃ msg, main c env0 dotenv (fresh d) =
                (Raises (SystemExit 1), {| trace := [Log ERROR msg]; disk := d |})).
  { unfold main, try_except, ScalpingBot_init, mbind, M_bind.
    destruct (from_env (py_int c) (py_float c) env0 (load_dotenv dotenv env0)) as [cfg|e] eqn:Hcfg.
    - simpl. destruct (validate_config_missing _ (fresh d) Hmissing) as [msg Hv].
      rewrite Hv. simpl. by exists msg.
    - simpl. apply from_env_raises in Hcfg.
      unfold except_Exception.
      destruct e; try discriminate Hcfg; simpl; eexists; reflexivity. }
  destruct H as [msg ->]. simpl. repeat split; try done.
  - by exists msg.
  - by repeat constructor.
Qed.

Lemma missing_credentials_exit_witness :
  unset_or_empty (load_dotenv ∅ (list_to_map [("BYBIT_API_KEY", "key")])) "BYBIT_API_SECRET"
    = true ∧
  exit_status (main quiet (list_to_map [("BYBIT_API_KEY", "key")]) ∅ (fresh no_data_dir)).1
    = Some 1.
Proof.
  split; [reflexivity|].
  apply (missing_credentials_exit quiet (list_to_map [("BYBIT_API_KEY", "key")]) ∅ no_data_dir).
  right. reflexivity.
Defined.

(** ** Signals *)

Section Signals.
Variable c : collaborators.

Lemma scheduled_insert_from (ts : list shutdown_task) (i : nat) (t : shutdown_task) :
  ts !! i = Some Scheduled → t ≠ Scheduled →
  S (length (filter (λ t, t = Scheduled) (<[i := t]> ts)))
    = length (filter (λ t, t = Scheduled) ts).
Proof.
  revert i. induction ts as [|t0 ts IH]; intros [|i] Hi Ht; try discriminate.
  - simpl in Hi. injection Hi as ->. simpl.
    rewrite filter_cons. by destruct (decide (t = Scheduled)).
  - simpl in Hi. simpl. rewrite !filter_cons.
    destruct (decide (t0 = Scheduled)); simpl; rewrite <- (IH i Hi Ht); done.
Qed.

Lemma scheduled_insert_other (ts : list shutdown_task) (i : nat) (t t' : shutdown_task) :
  ts !! i = Some t' → t' ≠ Scheduled → t ≠ Scheduled →
  length (filter (λ t, t = Scheduled) (<[i := t]> ts))
    = length (filter (λ t, t = Scheduled) ts).
Proof.
  revert i. induction ts as [|t0 ts IH]; intros [|i] Hi Ht' Ht; try discriminate.
  - simpl in Hi. injection Hi as ->. simpl. rewrite !filter_cons.
    destruct (decide (t = Scheduled)), (decide (t' = Scheduled)); done.
  - simpl in Hi. simpl. rewrite !filter_cons.
    destruct (decide (t0 = Scheduled)); simpl; rewrite (IH i Hi Ht' Ht); done.
Qed.

Lemma continue_stop_seen (i yields : nat) (l : event_loop) :
  stops (seen (continue_stop c i yields l)) = stops (seen l).
Proof.
  unfold continue_stop. destruct yields; [|done].
  destruct (engine_stop c) as [e|]; simpl; rewrite stops_app.
  - destruct e; simpl; by rewrite app_nil_r.
  - simpl. by rewrite app_nil_r.
Qed.

Lemma continue_stop_tasks (i yields : nat) (l : event_loop) :
  ∃ t, t ≠ Scheduled ∧ tasks (continue_stop c i yields l) = <[i := t]> (tasks l).
Proof.
  unfold continue_stop. destruct yields as [|n].
  - destruct (engine_stop c) as [e|].
    + exists (Failed e). split; [discriminate|reflexivity].
    + exists Completed. split; [discriminate|reflexivity].
  - exists (InEngineStop n). split; [discriminate|reflexivity].
Qed.

(** One step: a signal adds a task to run; a turn of the loop takes a
    task that has not run into its teardown, or goes on with one that
    has. *)
Lemma step_budget (l : event_loop) (a : action) :
  (teardowns (step c l a) + scheduled (step c l a)
     ≤ teardowns l + scheduled l + (if is_signal a then 1 else 0))%nat.
Proof.
  unfold step. destruct (exited l); [lia|]. destruct a as [signum|i]; simpl.
  - unfold teardowns, scheduled, signal_handler. simpl.
    rewrite stops_app, filter_app, !length_app. simpl. lia.
  - unfold resume. destruct (tasks l !! i) as [[|n|e|]|] eqn:Hi; try lia.
    + unfold teardowns, scheduled. rewrite continue_stop_seen. simpl.
      destruct (continue_stop_tasks i (engine_stop_awaits c)
                  {| tasks := tasks l;
                     seen := seen l ++ [Log INFO "Shutting down trading bot..."; Stop EngineLoop];
                     exited := exited l |}) as (t & Ht & ->).
      simpl. pose proof (scheduled_insert_from (tasks l) i t Hi Ht) as Hcount.
      rewrite stops_app, length_app. simpl. lia.
    + unfold teardowns, scheduled. rewrite continue_stop_seen.
      destruct (continue_stop_tasks i n l) as (t & Ht & ->).
      rewrite (scheduled_insert_other (tasks l) i t (InEngineStop n)); [lia|done..].
Qed.

Lemma steps_budget (schedule : list action) (l : event_loop) :
  (teardowns (steps c l schedule) + scheduled (steps c l schedule)
     ≤ teardowns l + scheduled l + length (filter (λ a, is_signal a = true) schedule))%nat.
Proof.
  revert l. induction schedule as [|a schedule IH]; intros l; [simpl; lia|].
  unfold steps in *. simpl. specialize (IH (step c l a)).
  pose proof (step_budget l a) as Hstep. rewrite filter_cons.
  destruct (is_signal a); simpl; lia.
Qed.

(** With a [stop()] that does not wait, a shutdown task does in one
    turn what the sequential [shutdown] does. *)
Lemma resume_is_shutdown (self : ScalpingBot) (w : world) :
  engine_stop_awaits c = 0%nat → trading_engine self = true →
  engine_stop c ≠ Some KeyboardInterrupt →
  seen (resume c 0 {| tasks := [Scheduled]; seen := trace w; exited := None |})
    = trace (shutdown c self w).2.
Proof.
  intros Hawaits Hattr Hki. unfold resume, shutdown. simpl. rewrite Hawaits, Hattr.
  unfold continue_stop, log, emit, call, sys_exit, raise, mbind, M_bind, mret, M_ret.
  destruct (engine_stop c) as [e|]; simpl; [|by rewrite <- ?app_assoc].
  destruct e; try done; rewrite ?app_nil_r; by rewrite <- ?app_assoc.
Qed.

(** The handler has no guard: while the process has not exited, every
    signal hands one more shutdown task to the loop. *)
Lemma signal_schedules_task (l : event_loop) (signum : Z) :
  exited l = None → tasks (step c l (Signal signum)) = tasks l ++ [Scheduled].
Proof. intros Hrun. unfold step. by rewrite Hrun. Qed.
End Signals.

(** C5, as the code has it.  Every trigger starts a shutdown task of
    its own, so a run goes into at most as many teardown sequences as
    it had triggers: one trigger gives at most one teardown, a second
    trigger can give a second. *)
Theorem teardowns_at_most_triggers (c : collaborators) (schedule : list action) :
  (teardowns (steps c running schedule)
     ≤ length (filter (λ a, is_signal a = true) schedule))%nat.
Proof.
  pose proof (steps_budget c schedule running) as H.
  change (teardowns running) with 0%nat in H.
  change (scheduled running) with 0%nat in H. lia.
Qed.

(** C5, as the claim has it, fails: with an engine whose [stop()]
    waits once, a second signal while the first shutdown is in
    progress leads to a second teardown. *)
Lemma second_signal_second_teardown :
  ¬ (∀ (c : collaborators) (schedule : list action),
       (teardowns (steps c running schedule) ≤ 1)%nat).
Proof.
  intros H.
  specialize (H slow_stop [Signal SIGTERM; Resume 0; Signal SIGTERM; Resume 1]).
  vm_compute in H. lia.
Qed.


(** * Further properties *)

(** ** The configuration *)

Lemma int_getenv_cases (pi : string → option Z) (env : environ) (name : string) (dflt : Z) :
  (∃ z, int_getenv pi env name dflt = Return z ∧ ¬ rejected pi env name) ∨
  (∃ m, int_getenv pi env name dflt = Raise (ValueError m) ∧ rejected pi env name).
Proof.
  unfold int_getenv, rejected. destruct (getenv env name) as [s|] eqn:Hs.
  - destruct (pi s) as [z|] eqn:Hp.
    + left. exists z. split; [done|]. intros (s' & [= <-] & Hs'). congruence.
    + right. eexists. split; [done|]. by exists s.
  - left. exists dflt. split; [done|]. by intros (s' & ? & _).
Qed.

Lemma float_getenv_cases (pf : string → option Q) (env : environ) (name : string) (dflt : Q) :
  (∃ q, float_getenv pf env name dflt = Return q ∧ ¬ rejected pf env name) ∨
  (∃ m, float_getenv pf env name dflt = Raise (ValueError m) ∧ rejected pf env name).
Proof.
  unfold float_getenv, rejected. destruct (getenv env name) as [s|] eqn:Hs.
  - destruct (pf s) as [q|] eqn:Hp.
    + left. exists q. split; [done|]. intros (s' & [= <-] & Hs'). congruence.
    + right. eexists. split; [done|]. by exists s.
  - left. exists dflt. split; [done|]. by intros (s' & ? & _).
Qed.

(** [from_env] fails exactly when one of the four numeric variables
    it converts is set to a text that [int()] or [float()] does not
    take; what it raises then is a [ValueError]. *)
Theorem from_env_raises_iff (pi : string → option Z) (pf : string → option Q)
    (env0 env : environ) :
  ((∃ e, from_env pi pf env0 env = Raise e) ↔
     rejected pi env "LEVERAGE" ∨ rejected pf env "MAX_POSITION_SIZE" ∨
     rejected pf env "STOP_LOSS_PCT" ∨ rejected pf env "TAKE_PROFIT_PCT") ∧
  (∀ e, from_env pi pf env0 env = Raise e → ∃ m, e = ValueError m).
Proof.
  unfold from_env.
  destruct (int_getenv_cases pi env "LEVERAGE" (LEVERAGE (defaults env0)))
    as [(z & -> & H1)|(m & -> & H1)];
    [|split; [split; [auto|by eexists]|intros e [= <-]; by eexists]].
  destruct (float_getenv_cases pf env "MAX_POSITION_SIZE" (MAX_POSITION_SIZE (defaults env0)))
    as [(q2 & -> & H2)|(m & -> & H2)];
    [|split; [split; [auto|by eexists]|intros e [= <-]; by eexists]].
  destruct (float_getenv_cases pf env "STOP_LOSS_PCT" (STOP_LOSS_PCT (defaults env0)))
    as [(q3 & -> & H3)|(m & -> & H3)];
    [|split; [split; [auto|by eexists]|intros e [= <-]; by eexists]].
  destruct (float_getenv_cases pf env "TAKE_PROFIT_PCT" (TAKE_PROFIT_PCT (defaults env0)))
    as [(q4 & -> & H4)|(m & -> & H4)];
    [|split; [split; [auto|by eexists]|intros e [= <-]; by eexists]].
  split; [|discriminate]. split; [by intros [e ?]|]. tauto.
Qed.

(** What the environment cannot change: [from_env] leaves [RENDER]
    and [BYBIT_TESTNET] as they were read when the class was defined,
    whatever the [.env] file says, and leaves the health-check port,
    the trade limit and the loss limit at their constants; the
    credentials, the Telegram settings, the symbol and the database
    URL are the variables' values, the default where one is unset. *)
Theorem from_env_fields (pi : string → option Z) (pf : string → option Q)
    (env0 env : environ) (cfg : TradingConfig) :
  from_env pi pf env0 env = Return cfg →
  RENDER cfg = RENDER (defaults env0) ∧
  BYBIT_TESTNET cfg = BYBIT_TESTNET (defaults env0) ∧
  HEALTH_CHECK_PORT cfg = 8080 ∧
  MAX_OPEN_TRADES cfg = 2 ∧
  MAX_DAILY_LOSS_PCT cfg = 1%Q ∧
  BYBIT_API_KEY cfg = default "" (getenv env "BYBIT_API_KEY") ∧
  BYBIT_API_SECRET cfg = default "" (getenv env "BYBIT_API_SECRET") ∧
  TELEGRAM_BOT_TOKEN cfg = default "" (getenv env "TELEGRAM_BOT_TOKEN") ∧
  TELEGRAM_CHAT_ID cfg = default "" (getenv env "TELEGRAM_CHAT_ID") ∧
  SYMBOL cfg = default "BTCUSDT" (getenv env "TRADING_SYMBOL") ∧
  DATABASE_URL cfg = default "sqlite:///./data/trades.db" (getenv env "DATABASE_URL").
Proof.
  unfold from_env.
  destruct (int_getenv pi env "LEVERAGE" _); [|discriminate].
  destruct (float_getenv pf env "MAX_POSITION_SIZE" _); [|discriminate].
  destruct (float_getenv pf env "STOP_LOSS_PCT" _); [|discriminate].
  destruct (float_getenv pf env "TAKE_PROFIT_PCT" _); [|discriminate].
  intros [= <-]. simpl. repeat split.
Qed.

Lemma from_env_fields_witness :
  from_env (py_int quiet) (py_float quiet) ∅ render_env
    = Return
        {| BYBIT_TESTNET := true; BYBIT_API_KEY := "key"; BYBIT_API_SECRET := "secret";
           SYMBOL := "BTCUSDT"; TIMEFRAME := "1"; LEVERAGE := 5;
           MAX_POSITION_SIZE := 1 # 1000; MAX_OPEN_TRADES := 2; STOP_LOSS_PCT := 3 # 10;
           TAKE_PROFIT_PCT := 2 # 10; MAX_DAILY_LOSS_PCT := 1;
           ML_MODEL_PATH := "models/scalping_model.joblib";
           PREDICTION_CONFIDENCE := 70 # 100; ML_TRAIN_INTERVAL_HOURS := 24;
           TELEGRAM_BOT_TOKEN := "token"; TELEGRAM_CHAT_ID := "42";
           ENABLE_AUTO_LEVERAGE_ADJUSTMENT := true; VOLATILITY_THRESHOLD := 15 # 10;
           MAX_CONSECUTIVE_LOSSES := 3; HEARTBEAT_INTERVAL := 30; ORDER_TIMEOUT := 10;
           DATA_FETCH_INTERVAL := 5 # 10; DATABASE_URL := "sqlite:///./data/trades.db";
           RENDER := false; HEALTH_CHECK_PORT := 8080 |} ∧
  RENDER (defaults ∅) = false.
Proof.
  split; [reflexivity|].
  pose proof (from_env_fields (py_int quiet) (py_float quiet) ∅ render_env _ eq_refl)
    as (Hr & _).
  exact (eq_sym Hr).
Defined.


Lemma from_env_strings (pi : string → option Z) (pf : string → option Q)
    (env0 env : environ) (cfg : TradingConfig) :
  from_env pi pf env0 env = Return cfg →
  BYBIT_API_KEY cfg = default "" (getenv env "BYBIT_API_KEY") ∧
  BYBIT_API_SECRET cfg = default "" (getenv env "BYBIT_API_SECRET") ∧
  TELEGRAM_BOT_TOKEN cfg = default "" (getenv env "TELEGRAM_BOT_TOKEN") ∧
  TELEGRAM_CHAT_ID cfg = default "" (getenv env "TELEGRAM_CHAT_ID").
Proof.
  unfold from_env.
  destruct (int_getenv pi env "LEVERAGE" _); [|discriminate].
  destruct (float_getenv pf env "MAX_POSITION_SIZE" _); [|discriminate].
  destruct (float_getenv pf env "STOP_LOSS_PCT" _); [|discriminate].
  destruct (float_getenv pf env "TAKE_PROFIT_PCT" _); [|discriminate].
  intros [= <-]. simpl. repeat split.
Qed.

Lemma validate_credentials (self : TradingConfig) :
  validate self = true → BYBIT_API_KEY self ≠ "" ∧ BYBIT_API_SECRET self ≠ "".
Proof.
  unfold validate.
  destruct (BYBIT_API_KEY self), (BYBIT_API_SECRET self); simpl; try discriminate.
  intros _. split; discriminate.
Qed.

(** [_validate_config] lets the start go on exactly when the
    configuration that [from_env] built from the same environment has
    both credentials non-empty; a configuration that [validate]
    accepts always passes it. *)
Theorem validate_config_agrees (pi : string → option Z) (pf : string → option Q)
    (env0 env : environ) (cfg : TradingConfig) (w : world) :
  from_env pi pf env0 env = Return cfg →
  (_validate_config env w = (Returns (), w) ↔
     BYBIT_API_KEY cfg ≠ "" ∧ BYBIT_API_SECRET cfg ≠ "") ∧
  (validate cfg = true → _validate_config env w = (Returns (), w)).
Proof.
  intros Hcfg.
  destruct (from_env_strings pi pf env0 env cfg Hcfg) as (Hk & Hs & _).
  assert (Hiff : _validate_config env w = (Returns (), w) ↔
                 BYBIT_API_KEY cfg ≠ "" ∧ BYBIT_API_SECRET cfg ≠ "").
  { rewrite Hk, Hs. unfold _validate_config, unset_or_empty. simpl.
    destruct (getenv env "BYBIT_API_KEY") as [[|a1 s1]|];
      destruct (getenv env "BYBIT_API_SECRET") as [[|a2 s2]|]; simpl;
      (split; [try discriminate; intros _; by split | intros [? ?]; try done]). }
  split; [exact Hiff|]. intros Hv. apply Hiff. by apply validate_credentials.
Qed.

Lemma validate_config_agrees_witness :
  _validate_config render_env (fresh no_data_dir) = (Returns (), fresh no_data_dir).
Proof.
  destruct (from_env (py_int quiet) (py_float quiet) ∅ render_env) as [cfg|e] eqn:Hcfg;
    [|discriminate Hcfg].
  apply (validate_config_agrees (py_int quiet) (py_float quiet) ∅ render_env cfg
           (fresh no_data_dir) Hcfg).
  injection Hcfg as <-. split; discriminate.
Defined.

(** ** More on the settings store *)

Section MoreSettings.
Import BotSettings.

Lemma where_key_update_other (k k' : string) (v : json) (now : Z) (tbl : table) :
  k ≠ k' → where_key k' (update_value k v now tbl) = where_key k' tbl.
Proof.
  intros Hne. unfold where_key, update_value. induction tbl as [|r tbl IH]; [done|].
  rewrite fmap_cons, !filter_cons. destruct (decide (key r = k)) as [Heq|Hneq]; simpl.
  - rewrite !decide_False by congruence. exact IH.
  - destruct (decide (key r = k')); by rewrite IH.
Qed.

Lemma set_bot_setting_table (now : Z) (k : string) (v : json) (tbl : table) :
  set_bot_setting now k v tbl =
    (Return true,
     if decide (k ∈ key <$> tbl) then update_value k v now tbl
     else tbl ++ [{| id := next_id tbl; key := k; value := v; updated_at := now |}]).
Proof.
  unfold set_bot_setting.
  destruct (head (where_key k tbl)) as [r|] eqn:Hhead.
  - rewrite decide_True; [done|]. apply dec_stable. intros Hnot.
    apply where_key_nil in Hnot. by rewrite Hnot in Hhead.
  - apply head_None in Hhead. rewrite (insert_fresh _ _ _ _ Hhead).
    rewrite decide_False; [done|]. by apply where_key_nil.
Qed.

(** A write to one key leaves every other key alone: its rows are
    the same rows, and it reads as before. *)
Theorem set_bot_setting_other_keys (now : Z) (k k' : string) (v : json) (tbl : table) :
  k ≠ k' →
  where_key k' (set_bot_setting now k v tbl).2 = where_key k' tbl ∧
  get_bot_setting k' (set_bot_setting now k v tbl).2 = get_bot_setting k' tbl.
Proof.
  intros Hne.
  assert (H : where_key k' (set_bot_setting now k v tbl).2 = where_key k' tbl).
  { rewrite set_bot_setting_table. simpl. destruct (decide (k ∈ key <$> tbl)).
    - by apply where_key_update_other.
    - unfold where_key. rewrite filter_app, filter_cons. simpl.
      rewrite decide_False by done. by rewrite filter_nil, app_nil_r. }
  split; [exact H|]. unfold get_bot_setting. by rewrite H.
Qed.

Lemma set_bot_setting_other_keys_witness :
  "mode" ≠ "limit" ∧
  get_bot_setting "limit"
    (set_bot_setting 7 "mode" JNull
       [{| id := 1; key := "limit"; value := JBool true; updated_at := 3 |}]).2
    = JBool true.
Proof.
  split; [discriminate|].
  apply (set_bot_setting_other_keys 7 "mode" "limit" JNull
           [{| id := 1; key := "limit"; value := JBool true; updated_at := 3 |}]).
  discriminate.
Defined.



End MoreSettings.

(** ** More on the trade ledger *)

Section MoreLedger.
Import TradeLog.

Lemma pk_has_id (r : row) (s : string) : pk r = Some s ↔ has_id s r.
Proof.
  unfold pk, has_id. destruct (r id); split; intros H; try discriminate; congruence.
Qed.

Lemma has_id_in_pks (s : string) (tbl : table) :
  Some s ∈ pk <$> tbl ↔ ∃ r, r ∈ tbl ∧ has_id s r.
Proof.
  rewrite list_elem_of_fmap. split.
  - intros (r & Hpk & Hin). exists r. split; [done|]. by apply pk_has_id.
  - intros (r & Hin & Hid). exists r. split; [|done]. symmetry. by apply pk_has_id.
Qed.

Lemma merge_columns (f : column → pyval) (r : row) (c : column) :
  merge ((λ c, (c, f c)) <$> columns) r c = f c.
Proof. destruct c; reflexivity. Qed.

(** The row an insert stores when the database keeps the values as
    they are given: the supplied value in each column the dictionary
    names, the clock in [created_at] when that is not supplied or is
    [None], and NULL in every other column. *)
Lemma insert_value_supplied (now : Z) (a : assignments) (col : column) :
  insert_value now (merge a null_row) col =
    match default VNone (supplied a col) with
    | VNone => if decide (col = created_at) then VDateTime now else VNone
    | v => v
    end.
Proof.
  destruct col; unfold insert_value; rewrite merge_supplied; unfold null_row;
    destruct (supplied a _) as [[]|]; reflexivity.
Qed.

Lemma insert_value_id (now : Z) (a : assignments) :
  insert_value now (merge a null_row) id = default VNone (supplied a id).
Proof. rewrite insert_value_supplied. by destruct (default VNone (supplied a id)). Qed.

Lemma constraint_failed_IntegrityError (tbl : table) :
  ∃ msg, constraint_failed tbl = IntegrityError msg.
Proof. unfold constraint_failed. destruct (decide _); by eexists. Qed.

Lemma log_trade_unfold (binds : binder) (keyword : string → pyval → option exn) (now : Z)
    (trade_data : list (string * pyval)) (a : assignments) (tbl : table) :
  construct keyword trade_data = Return a →
  binds (insert_values now (merge a null_row)) = Return (insert_values now (merge a null_row)) →
  ∃ new_row,
    (∀ col, new_row col = insert_value now (merge a null_row) col) ∧
    log_trade binds keyword now trade_data tbl =
      if decide (primary_key_ok (tbl ++ [new_row]))
      then (Return true, tbl ++ [new_row])
      else (Raise (constraint_failed (tbl ++ [new_row])), tbl).
Proof.
  intros Hc Hb. exists (merge (insert_values now (merge a null_row)) null_row). split.
  - intros col. apply merge_columns.
  - unfold log_trade. by rewrite Hc, Hb.
Qed.

Lemma primary_key_ok_snoc (tbl : table) (r : row) :
  primary_key_ok (tbl ++ [r]) ↔
    primary_key_ok tbl ∧ ∃ s, pk r = Some s ∧ ∀ r', r' ∈ tbl → ¬ has_id s r'.
Proof.
  unfold primary_key_ok. rewrite Forall_app, Forall_singleton, fmap_app, NoDup_app.
  simpl. split.
  - intros ((Hall & [s Hs]) & Hnd & Hdisj & _). split; [done|].
    exists s. split; [done|]. intros r' Hin Hid.
    apply (Hdisj (Some s)); [|rewrite Hs; left].
    apply has_id_in_pks. by exists r'.
  - intros ((Hall & Hnd) & s & Hs & Hfresh). split; [split; [done|by exists s]|].
    split; [done|]. split; [|apply NoDup_singleton].
    intros x Hx Hx'. apply list_elem_of_singleton in Hx'. subst x. rewrite Hs in Hx.
    apply has_id_in_pks in Hx as (r' & Hin & Hid). by apply (Hfresh r').
Qed.

(** A trade with a new id is added at the end of the table, and
    [log_trade] answers [True], when the constructor takes every
    keyword of the dictionary and the database stores the values as
    they are given.  The new row has the supplied value in each column the
    dictionary names; [created_at] is the time of the call when it is
    not supplied or is [None], and every other column is NULL. *)
Theorem log_trade_appends (binds : binder) (keyword : string → pyval → option exn) (now : Z)
    (trade_data : list (string * pyval)) (a : assignments) (s : string) (tbl : table) :
  primary_key_ok tbl →
  construct keyword trade_data = Return a →
  binds (insert_values now (merge a null_row)) = Return (insert_values now (merge a null_row)) →
  supplied a id = Some (VStr s) →
  (∀ r, r ∈ tbl → ¬ has_id s r) →
  ∃ new_row,
    log_trade binds keyword now trade_data tbl = (Return true, tbl ++ [new_row]) ∧
    has_id s new_row ∧
    ∀ col, new_row col =
             match default VNone (supplied a col) with
             | VNone => if decide (col = created_at) then VDateTime now else VNone
             | v => v
             end.
Proof.
  intros Hpk Hc Hb Hid Hfresh.
  destruct (log_trade_unfold binds keyword now trade_data a tbl Hc Hb)
    as (new_row & Hrow & ->).
  exists new_row.
  assert (Hs : has_id s new_row).
  { unfold has_id. by rewrite Hrow, insert_value_id, Hid. }
  rewrite decide_True.
  - split; [done|]. split; [done|]. intros col. rewrite Hrow. apply insert_value_supplied.
  - apply primary_key_ok_snoc. split; [done|]. exists s. split; [|done].
    by apply pk_has_id.
Qed.

Lemma log_trade_appends_witness :
  ∃ new_row,
    log_trade typed_binds columns_only 50
      [("id", VStr "t2"); ("status", VStr "open"); ("created_at", VNone)] [open_trade]
      = (Return true, [open_trade] ++ [new_row]) ∧
    has_id "t2" new_row ∧
    ∀ col, new_row col =
             match default VNone
                     (supplied [(id, VStr "t2"); (status, VStr "open"); (created_at, VNone)]
                        col) with
             | VNone => if decide (col = created_at) then VDateTime 50 else VNone
             | v => v
             end.
Proof.
  apply (log_trade_appends typed_binds columns_only 50
           [("id", VStr "t2"); ("status", VStr "open"); ("created_at", VNone)]
           [(id, VStr "t2"); (status, VStr "open"); (created_at, VNone)] "t2" [open_trade]).
  - apply (primary_key_ok_singleton _ "t1"). reflexivity.
  - reflexivity.
  - reflexivity.
  - reflexivity.
  - intros r Hr. apply list_elem_of_singleton in Hr. subst r. discriminate.
Defined.

(** A trade without an id, or with the id of a trade that is already
    in the table, is refused once its values are bound: [log_trade]
    raises [IntegrityError] and the table is as it was. *)
Theorem log_trade_refuses (binds : binder) (keyword : string → pyval → option exn) (now : Z)
    (trade_data : list (string * pyval)) (a : assignments) (tbl : table) :
  construct keyword trade_data = Return a →
  binds (insert_values now (merge a null_row)) = Return (insert_values now (merge a null_row)) →
  supplied a id = None ∨ supplied a id = Some VNone ∨
    (∃ s r, supplied a id = Some (VStr s) ∧ r ∈ tbl ∧ has_id s r) →
  ∃ msg, log_trade binds keyword now trade_data tbl = (Raise (IntegrityError msg), tbl).
Proof.
  intros Hc Hb Hbad.
  destruct (log_trade_unfold binds keyword now trade_data a tbl Hc Hb)
    as (new_row & Hrow & ->).
  rewrite decide_False.
  - destruct (constraint_failed_IntegrityError (tbl ++ [new_row])) as [msg ->]. by exists msg.
  - rewrite primary_key_ok_snoc.
    intros (_ & s & Hs & Hfresh). unfold pk in Hs. rewrite Hrow, insert_value_id in Hs.
    destruct Hbad as [Hn|[Hn|(s' & r & Hn & Hin & Hid)]]; rewrite Hn in Hs; simpl in Hs;
      try discriminate.
    injection Hs as <-. by apply (Hfresh r).
Qed.

Lemma log_trade_refuses_witness :
  ∃ msg, log_trade typed_binds columns_only 50
           [("id", VStr "t1"); ("status", VStr "open")] [open_trade]
           = (Raise (IntegrityError msg), [open_trade]).
Proof.
  apply (log_trade_refuses typed_binds columns_only 50
           [("id", VStr "t1"); ("status", VStr "open")]
           [(id, VStr "t1"); (status, VStr "open")] [open_trade]).
  - reflexivity.
  - reflexivity.
  - right. right. exists "t1", open_trade. split; [reflexivity|].
    split; [left|reflexivity].
Defined.

(** With the primary key in force at most one row has a given id, so
    [update_trade] changes at most one row. *)
Theorem at_most_one_row_per_id (trade_id : string) (tbl : table) :
  primary_key_ok tbl →
  rowcount trade_id tbl ≤ 1 ∧
  ∀ i j r r', tbl !! i = Some r → tbl !! j = Some r' →
    has_id trade_id r → has_id trade_id r' → i = j.
Proof.
  intros [_ Hnd].
  assert (Huniq : ∀ i j r r', tbl !! i = Some r → tbl !! j = Some r' →
            has_id trade_id r → has_id trade_id r' → i = j).
  { intros i j r r' Hi Hj Hr Hr'.
    apply (NoDup_lookup _ i j (Some trade_id) Hnd); rewrite list_lookup_fmap.
    - rewrite Hi. simpl. f_equal. by apply pk_has_id.
    - rewrite Hj. simpl. f_equal. by apply pk_has_id. }
  split; [|exact Huniq].
  unfold rowcount. clear Huniq. induction tbl as [|r tbl IH]; [simpl; lia|].
  rewrite fmap_cons in Hnd. apply NoDup_cons in Hnd as [Hnotin Hnd].
  rewrite filter_cons. destruct (decide (has_id trade_id r)) as [Hid|Hid]; [|by apply IH].
  assert (Hnil : filter (has_id trade_id) tbl = []).
  { destruct (filter (has_id trade_id) tbl) as [|r' l] eqn:Hf; [done|]. exfalso.
    assert (Hr' : r' ∈ filter (has_id trade_id) tbl) by (rewrite Hf; left).
    apply list_elem_of_filter in Hr' as [Hid' Hin]. apply Hnotin.
    apply pk_has_id in Hid. rewrite Hid. apply has_id_in_pks. by exists r'. }
  rewrite Hnil. simpl. lia.
Qed.

Lemma at_most_one_row_per_id_witness :
  rowcount "t1" [open_trade; trade_at "t2" 5] ≤ 1.
Proof.
  apply (at_most_one_row_per_id "t1" [open_trade; trade_at "t2" 5]).
  split.
  - repeat constructor; by eexists.
  - apply NoDup_cons. split; [|apply NoDup_singleton].
    intros H. apply list_elem_of_singleton in H. discriminate H.
Defined.

Lemma values_unknown (data : list (string * pyval)) :
  (∃ k v, (k, v) ∈ data ∧ column_of_name k = None) →
  ∃ msg, values data = Raise (CompileError msg).
Proof.
  intros (k & v & Hin & Hnone). induction data as [|[k' v'] data IH]; [inversion Hin|].
  simpl. destruct (column_of_name k') as [c|] eqn:Hc; [|by eexists].
  apply elem_of_cons in Hin as [[= -> ->]|Hin]; [congruence|].
  destruct (IH Hin) as [msg ->]. by eexists.
Qed.

Lemma construct_unknown (keyword : string → pyval → option exn)
    (data : list (string * pyval)) :
  (∃ k v, (k, v) ∈ data ∧ column_of_name k = None ∧ is_Some (keyword k v)) →
  ∃ e, construct keyword data = Raise e.
Proof.
  intros (k & v & Hin & Hnone & [e He]).
  induction data as [|[k' v'] data IH]; [inversion Hin|].
  simpl. apply elem_of_cons in Hin as [[= <- <-]|Hin].
  - rewrite Hnone, He. by eexists.
  - destruct (IH Hin) as [e' He']. rewrite He'.
    destruct (column_of_name k') as [c|]; [by eexists|].
    destruct (keyword k' v'); by eexists.
Qed.

(** A dictionary with a key that names no column is refused as a
    whole by [update_trade], with a [CompileError], and one with a key
    that the constructor of the class does not take is refused as a
    whole by [log_trade]; the table is as it was, also when the other
    keys are good. *)
Theorem unknown_column_refused (binds : binder) (keyword : string → pyval → option exn) (now : Z)
    (trade_id : string) (data : list (string * pyval)) (tbl : table) :
  ((∃ k v, (k, v) ∈ data ∧ column_of_name k = None) →
   ∃ msg, update_trade binds trade_id data tbl = (Raise (CompileError msg), tbl)) ∧
  ((∃ k v, (k, v) ∈ data ∧ column_of_name k = None ∧ is_Some (keyword k v)) →
   ∃ e, log_trade binds keyword now data tbl = (Raise e, tbl)).
Proof.
  split.
  - intros Hunknown. unfold update_trade.
    destruct data as [|kv rest]; [by destruct Hunknown as (k & v & Hin & _); inversion Hin|].
    destruct (values_unknown _ Hunknown) as [msg ->]. by eexists.
  - intros Hunknown. unfold log_trade.
    destruct (construct_unknown keyword _ Hunknown) as [e ->]. by eexists.
Qed.

Lemma unknown_column_refused_witness :
  ∃ msg, update_trade typed_binds "t1" [("status", VStr "closed"); ("profit", VInt 3)]
           [open_trade]
         = (Raise (CompileError msg), [open_trade]).
Proof.
  apply (unknown_column_refused typed_binds columns_only 0 "t1"
           [("status", VStr "closed"); ("profit", VInt 3)] [open_trade]).
  exists "profit", (VInt 3). split; [right; left|reflexivity].
Defined.

(** An update that would give a trade the id of another trade is
    refused once its values are bound: [update_trade] raises
    [IntegrityError] and the table is as it was. *)
Theorem update_trade_id_collision (binds : binder) (trade_id other : string)
    (update_data : list (string * pyval)) (a : assignments) (tbl : table) (r r' : row) :
  values update_data = Return a →
  binds a = Return a →
  supplied a id = Some (VStr other) →
  trade_id ≠ other →
  r ∈ tbl → has_id trade_id r →
  r' ∈ tbl → has_id other r' →
  ∃ msg, update_trade binds trade_id update_data tbl = (Raise (IntegrityError msg), tbl).
Proof.
  intros Hval Hbind Hsup Hne Hin Hid Hin' Hid'. unfold update_trade.
  destruct update_data as [|kv rest]; [simpl in Hval; injection Hval as <-; discriminate|].
  rewrite Hval, Hbind. rewrite decide_False.
  { destruct (constraint_failed_IntegrityError (updated trade_id a <$> tbl)) as [msg ->].
    by exists msg. }
  intros [_ Hnd].
  apply list_elem_of_lookup in Hin as [i Hi]. apply list_elem_of_lookup in Hin' as [j Hj].
  assert (Hij : i = j).
  { apply (NoDup_lookup _ i j (Some other) Hnd); rewrite !list_lookup_fmap.
    - rewrite Hi. simpl. f_equal. apply pk_has_id. unfold updated.
      rewrite decide_True by done. unfold has_id. by rewrite merge_supplied, Hsup.
    - rewrite Hj. simpl. f_equal. apply pk_has_id. unfold updated.
      rewrite decide_False; [done|]. unfold has_id in *. congruence. }
  subst j. rewrite Hi in Hj. injection Hj as <-. unfold has_id in *. congruence.
Qed.

Lemma update_trade_id_collision_witness :
  ∃ msg, update_trade typed_binds "t1" [("id", VStr "t2")] [open_trade; trade_at "t2" 5]
           = (Raise (IntegrityError msg), [open_trade; trade_at "t2" 5]).
Proof.
  apply (update_trade_id_collision typed_binds "t1" "t2" [("id", VStr "t2")]
           [(id, VStr "t2")] [open_trade; trade_at "t2" 5] open_trade (trade_at "t2" 5)).
  - reflexivity.
  - reflexivity.
  - reflexivity.
  - discriminate.
  - left.
  - reflexivity.
  - right. left.
  - reflexivity.
Defined.

(** A value that the driver cannot bind: what the driver raises comes
    out of the call, before any constraint is looked at, and the table
    is as it was. *)
Lemma update_trade_unbound (binds : binder) (trade_id : string)
    (update_data : list (string * pyval)) (a : assignments) (e : exn) (tbl : table) :
  update_data ≠ [] → values update_data = Return a → binds a = Raise e →
  update_trade binds trade_id update_data tbl = (Raise e, tbl).
Proof.
  intros Hne Hval Hbind. unfold update_trade.
  destruct update_data as [|kv rest]; [done|]. by rewrite Hval, Hbind.
Qed.

(** So for an integer of more than 64 bits with [sqlite3]. *)
Lemma update_trade_overflow :
  ∃ msg, update_trade int64_binds "t1" [("leverage", VInt (2 ^ 63))] [open_trade]
           = (Raise (OverflowError msg), [open_trade]).
Proof. eexists. reflexivity. Qed.

(** A trade that [log_trade] has stored is found by [update_trade]:
    an update by its id, of other columns than the id and with values
    that the database stores as they are given, answers [True]. *)
Theorem log_trade_then_update (binds : binder) (keyword : string → pyval → option exn) (now : Z)
    (trade_data update_data : list (string * pyval))
    (a u : assignments) (s : string) (tbl tbl' : table) :
  log_trade binds keyword now trade_data tbl = (Return true, tbl') →
  construct keyword trade_data = Return a →
  binds (insert_values now (merge a null_row)) = Return (insert_values now (merge a null_row)) →
  supplied a id = Some (VStr s) →
  update_data ≠ [] →
  values update_data = Return u →
  binds u = Return u →
  id ∉ u.*1 →
  (update_trade binds s update_data tbl').1 = Return true.
Proof.
  intros Hlog Hc Hb Hid Hne Hu Hbu Hnoid.
  destruct (log_trade_unfold binds keyword now trade_data a tbl Hc Hb)
    as (new_row & Hrow & Hunfold).
  rewrite Hunfold in Hlog.
  destruct (decide _) as [Hpk|]; [|discriminate]. injection Hlog as <-.
  rewrite (update_trade_unfold _ _ _ u u) by done. simpl. f_equal.
  apply bool_decide_eq_true, rowcount_pos.
  exists new_row. split.
  - apply elem_of_app. right. left.
  - unfold has_id. by rewrite Hrow, insert_value_id, Hid.
Qed.

Lemma log_trade_then_update_witness :
  (update_trade typed_binds "t2" [("status", VStr "closed")]
     (log_trade typed_binds columns_only 50 [("id", VStr "t2"); ("status", VStr "open")]
        [open_trade]).2).1
    = Return true.
Proof.
  apply (log_trade_then_update typed_binds columns_only 50
           [("id", VStr "t2"); ("status", VStr "open")]
           [("status", VStr "closed")] [(id, VStr "t2"); (status, VStr "open")]
           [(status, VStr "closed")] "t2" [open_trade]).
  - vm_compute. reflexivity.
  - reflexivity.
  - reflexivity.
  - reflexivity.
  - discriminate.
  - reflexivity.
  - reflexivity.
  - simpl. intros H. apply list_elem_of_singleton in H. discriminate H.
Defined.
End MoreLedger.

(** ** More on the recent trades *)

Section MoreRecent.
Import TradeLog.
Variable nulls_first : bool.

(** The edges of the limit: with limit 0 the answer is empty; with a
    limit of at least the number of trades every trade is in the
    answer; and whatever the limit, the answer holds rows of the table
    only. *)
Theorem get_recent_trades_limits (limit : nat) (tbl rows : table) :
  get_recent_trades nulls_first limit tbl rows →
  (limit = 0%nat → rows = []) ∧
  ((length tbl ≤ limit)%nat → tbl ≡ₚ rows) ∧
  (∀ r, r ∈ rows → r ∈ tbl).
Proof.
  intros (sorted & [Hp Hs] & ->). split; [by intros ->|]. split.
  - intros Hlen. rewrite take_ge; [done|]. by rewrite <- (Permutation_length Hp).
  - intros r Hr. rewrite Hp. by apply (subseteq_take limit sorted).
Qed.

(** Round trip: a trade that [log_trade] has stored, its values kept
    as they were given, with an [opened_at] later than that of every
    trade before it is the first row of every answer of the recent
    trades query with a limit of one or more. *)
Theorem log_trade_then_recent (binds : binder) (keyword : string → pyval → option exn) (now : Z)
    (trade_data : list (string * pyval))
    (a : assignments) (t : Z) (limit : nat) (tbl tbl' rows : table) :
  log_trade binds keyword now trade_data tbl = (Return true, tbl') →
  construct keyword trade_data = Return a →
  binds (insert_values now (merge a null_row)) = Return (insert_values now (merge a null_row)) →
  supplied a opened_at = Some (VDateTime t) →
  (∀ r, r ∈ tbl → ∃ t', opened r = Some t' ∧ t' < t) →
  get_recent_trades nulls_first (S limit) tbl' rows →
  ∃ new_row rest,
    rows = new_row :: rest ∧ last tbl' = Some new_row ∧
    ∀ col, new_row col =
             match default VNone (supplied a col) with
             | VNone => if decide (col = created_at) then VDateTime now else VNone
             | v => v
             end.
Proof.
  intros Hlog Hc Hb Ht Hold (sorted & [Hp Hs] & ->).
  destruct (log_trade_unfold binds keyword now trade_data a tbl Hc Hb)
    as (new_row & Hrow & Hunfold).
  rewrite Hunfold in Hlog.
  destruct (decide _) as [Hpk|]; [|discriminate]. injection Hlog as <-.
  assert (Hnew : opened new_row = Some t).
  { unfold opened. by rewrite Hrow, insert_value_supplied, Ht. }
  destruct sorted as [|h sorted].
  { apply Permutation_length in Hp. rewrite length_app in Hp. simpl in Hp. lia. }
  exists new_row, (take limit sorted). split; [|split].
  - simpl. f_equal.
    assert (Hh : h ∈ tbl ++ [new_row]) by (rewrite Hp; left).
    apply elem_of_app in Hh as [Hh|Hh]; [|by apply list_elem_of_singleton in Hh].
    exfalso. destruct (Hold h Hh) as (t' & Ht' & Hlt).
    assert (Hin : new_row ∈ h :: sorted) by (rewrite <- Hp; apply elem_of_app; right; left).
    apply elem_of_cons in Hin as [Heq|Hin].
    + rewrite <- Heq in Ht'. rewrite Hnew in Ht'. injection Ht' as ->. lia.
    + apply StronglySorted_inv in Hs as [_ Hall].
      rewrite Forall_forall in Hall. specialize (Hall new_row Hin).
      unfold opened_desc, desc in Hall. rewrite Ht', Hnew in Hall. lia.
  - apply last_snoc.
  - intros col. rewrite Hrow. apply insert_value_supplied.
Qed.
End MoreRecent.

Lemma get_recent_trades_limits_witness :
  [trade_at "a" 1; trade_at "b" 2; trade_at "c" 3]
    ≡ₚ [trade_at "c" 3; trade_at "b" 2; trade_at "a" 1].
Proof.
  apply (get_recent_trades_limits false 3 _ _ three_trades_answer). simpl. lia.
Defined.

Lemma log_trade_then_recent_witness :
  ∃ new_row rest,
    get_recent_trades_stable false 2
      (log_trade typed_binds columns_only 50
         [("id", VStr "t9"); ("status", VStr "open"); ("opened_at", VDateTime 500)]
         [open_trade]).2 = new_row :: rest ∧
    last (log_trade typed_binds columns_only 50
            [("id", VStr "t9"); ("status", VStr "open"); ("opened_at", VDateTime 500)]
            [open_trade]).2 = Some new_row ∧
    ∀ col, new_row col =
             match default VNone
                     (TradeLog.supplied
                        [(TradeLog.id, VStr "t9"); (TradeLog.status, VStr "open");
                         (TradeLog.opened_at, VDateTime 500)] col) with
             | VNone => if decide (col = TradeLog.created_at) then VDateTime 50 else VNone
             | v => v
             end.
Proof.
  refine (log_trade_then_recent false typed_binds columns_only 50
            [("id", VStr "t9"); ("status", VStr "open"); ("opened_at", VDateTime 500)]
            [(TradeLog.id, VStr "t9"); (TradeLog.status, VStr "open");
             (TradeLog.opened_at, VDateTime 500)]
            500 1 [open_trade] _ _ _ _ _ _ _ _).
  - vm_compute. reflexivity.
  - reflexivity.
  - reflexivity.
  - reflexivity.
  - intros r Hr. apply list_elem_of_singleton in Hr. subst r. exists 100.
    split; [reflexivity|lia].
  - apply get_recent_trades_answers.
Defined.

(** ** More on schema initialization *)

Lemma create_all_fixed (st : storage) : schema_ok st → create_all st = st.
Proof.
  intros Hok.
  assert (H1 : "trades" ∈ tables st) by (apply Hok; set_solver).
  assert (H2 : "bot_settings" ∈ tables st) by (apply Hok; set_solver).
  unfold create_all, metadata_tables. cbn [foldr].
  rewrite (decide_True _ _ H2), (decide_True _ _ H1). by destruct st.
Qed.

Lemma create_all_tables (st : storage) (t : string) :
  t ∈ tables st → t ∈ tables (create_all st).
Proof.
  intros Ht. unfold create_all, metadata_tables. simpl.
  assert (Hb : t ∈ (if decide ("bot_settings" ∈ tables st) then tables st
                    else {["bot_settings"]} ∪ tables st)).
  { destruct (decide ("bot_settings" ∈ tables st)); [done|]. by apply elem_of_union_r. }
  destruct (decide ("trades" ∈ _)); [done|]. by apply elem_of_union_r.
Qed.

Lemma connect_keeps (target : db_target) (st st1 : storage) :
  connect target st = Return st1 →
  tables st1 = tables st ∧
  ∀ p n, nodes st !! p = Some n → nodes st1 !! p = Some n.
Proof.
  unfold connect. destruct target as [file|]; [|by intros [= <-]].
  destruct (is_dir st (removelast file)); [|discriminate].
  destruct (nodes st !! file) as [[|]|] eqn:Hf; [discriminate| |]; intros [= <-]; [done|].
  simpl. split; [done|]. intros p n Hp.
  rewrite lookup_insert_ne; [done|]. congruence.
Qed.

Lemma connect_file (file : path) (st st1 : storage) :
  connect (SqliteFile file) st = Return st1 →
  is_dir st (removelast file) = true ∧ nodes st1 !! file = Some RegularFile.
Proof.
  unfold connect. destruct (is_dir st (removelast file)); [|discriminate].
  destruct (nodes st !! file) as [[|]|] eqn:Hf; [discriminate| |]; intros [= <-].
  - done.
  - simpl. by rewrite lookup_insert_eq.
Qed.

Lemma makedirs_data (st st' : storage) :
  makedirs [] ["data"] st = Return st' →
  tables st' = tables st ∧
  nodes st' !! ["data"] = Some Directory ∧
  nodes st !! ["data"] ≠ Some RegularFile ∧
  ∀ p n, nodes st !! p = Some n → nodes st' !! p = Some n.
Proof.
  simpl. destruct (nodes st !! ["data"]) as [[|]|] eqn:Hd; [|discriminate|]; intros [= <-].
  - done.
  - simpl. rewrite lookup_insert_eq. repeat split; try done.
    intros p n Hp. rewrite lookup_insert_ne; [done|]. congruence.
Qed.

Lemma is_dir_keeps (st st' : storage) (dir : path) :
  (∀ p n, nodes st !! p = Some n → nodes st' !! p = Some n) →
  is_dir st dir = true → is_dir st' dir = true.
Proof.
  intros Hkeep. unfold is_dir. destruct dir; [done|].
  rewrite !bool_decide_eq_true. apply Hkeep.
Qed.

(** What [init_db] never does: whether it returns or raises, every
    table and every file or directory that was there is still there,
    as what it was. *)
Theorem init_db_keeps (target : db_target) (st : storage) :
  (∀ t, t ∈ tables st → t ∈ tables (init_db target st).2) ∧
  (∀ p n, nodes st !! p = Some n → nodes (init_db target st).2 !! p = Some n).
Proof.
  unfold init_db. destruct (connect target st) as [st1|e] eqn:Hc; [|done].
  apply connect_keeps in Hc as [Ht Hn].
  destruct (makedirs [] ["data"] (create_all st1)) as [st3|e] eqn:Hm; simpl.
  - apply makedirs_data in Hm as (Ht3 & _ & _ & Hn3). split.
    + intros t Hin. rewrite Ht3. apply create_all_tables. by rewrite Ht.
    + intros p n Hp. apply Hn3. simpl. by apply Hn.
  - split.
    + intros t Hin. apply create_all_tables. by rewrite Ht.
    + intros p n Hp. by apply Hn.
Qed.

(** [init_db] can be run again: once it has returned, a second run on
    the storage it left returns too and changes nothing. *)
Theorem init_db_idempotent (target : db_target) (st st' : storage) :
  init_db target st = (Return (), st') →
  schema_ok st' ∧ nodes st' !! ["data"] = Some Directory ∧
  init_db target st' = (Return (), st').
Proof.
  unfold init_db at 1. destruct (connect target st) as [st1|e] eqn:Hc; [|discriminate].
  destruct (makedirs [] ["data"] (create_all st1)) as [st3|e] eqn:Hm; [|discriminate].
  intros [= <-]. pose proof Hm as (Ht3 & Hd3 & _ & Hn3)%makedirs_data.
  assert (Hok : schema_ok st3).
  { intros t Ht. rewrite Ht3. by apply create_all_schema_ok. }
  split; [done|]. split; [done|].
  assert (Hc3 : connect target st3 = Return st3).
  { destruct target as [file|]; [|done].
    apply connect_file in Hc as Hfile. destruct Hfile as [Hdir Hfile].
    apply connect_keeps in Hc as [_ Hn1].
    assert (Hdir3 : is_dir st3 (removelast file) = true).
    { apply (is_dir_keeps st st3); [|done].
      intros p n Hp. apply Hn3. simpl. by apply Hn1. }
    unfold connect. rewrite Hdir3. by rewrite (Hn3 file RegularFile Hfile). }
  unfold init_db. rewrite Hc3, (create_all_fixed st3 Hok). simpl. by rewrite Hd3.
Qed.

Lemma init_db_idempotent_witness :
  init_db (SqliteFile ["data"; "trades.db"])
    (init_db (SqliteFile ["data"; "trades.db"]) with_data_dir).2
  = (Return (), (init_db (SqliteFile ["data"; "trades.db"]) with_data_dir).2).
Proof.
  apply (init_db_idempotent (SqliteFile ["data"; "trades.db"]) with_data_dir).
  reflexivity.
Defined.

(** [init_db] returns only when the database could be opened (for a
    SQLite file: its directory is there, and the file is neither a
    directory nor [data] itself) and [data] is not a regular file.  In
    every other case it raises. *)
Theorem init_db_returns_only_if (target : db_target) (st st' : storage) :
  init_db target st = (Return (), st') →
  match target with
  | SqliteFile file =>
      is_dir st (removelast file) = true ∧ nodes st !! file ≠ Some Directory ∧
      file ≠ ["data"]
  | OtherDatabase => True
  end ∧
  nodes st !! ["data"] ≠ Some RegularFile.
Proof.
  intros Hinit. unfold init_db in Hinit.
  destruct (connect target st) as [st1|e] eqn:Hc; [|discriminate].
  destruct (makedirs [] ["data"] (create_all st1)) as [st3|e] eqn:Hm; [|discriminate].
  apply makedirs_data in Hm as (_ & _ & Hnf & _). simpl in Hnf.
  pose proof Hc as [_ Hkeep]%connect_keeps. split.
  - destruct target as [file|]; [|done].
    pose proof Hc as [Hdir Hfile]%connect_file. split; [done|]. split.
    + unfold connect in Hc. rewrite Hdir in Hc. intros Hd. by rewrite Hd in Hc.
    + intros ->. congruence.
  - intros Hd. apply Hkeep in Hd. congruence.
Qed.

Lemma init_db_returns_only_if_witness :
  (is_dir with_data_dir (removelast ["data"; "trades.db"]) = true ∧
   nodes with_data_dir !! ["data"; "trades.db"] ≠ Some Directory ∧
   ["data"; "trades.db"] ≠ ["data"]) ∧
  nodes with_data_dir !! ["data"] ≠ Some RegularFile.
Proof.
  apply (init_db_returns_only_if (SqliteFile ["data"; "trades.db"]) with_data_dir
           (init_db (SqliteFile ["data"; "trades.db"]) with_data_dir).2).
  reflexivity.
Defined.

(** ** More on signals *)

Section MoreSignals.
Variable c : collaborators.





Lemma step_no_exit (l : event_loop) (a : action) (e : exn) :
  engine_stop c = Some e → is_Exception e = true →
  exited l = None → exited (step c l a) = None.
Proof.
  intros Hstop Hexc Hrun. unfold step. rewrite Hrun. destruct a as [signum|i]; [done|].
  unfold resume. destruct (tasks l !! i) as [[|n| |]|]; try done.
  - unfold continue_stop. destruct (engine_stop_awaits c); [|done].
    rewrite Hstop. by destruct e.
  - unfold continue_stop. destruct n; [|done]. rewrite Hstop. by destruct e.
Qed.

(** When the engine's [stop()] raises an [Exception], no signal ends
    the process: the shutdown task dies before [sys.exit], whatever
    the schedule. *)
Theorem failing_stop_never_exits (schedule : list action) (e : exn) :
  engine_stop c = Some e → is_Exception e = true →
  exited (steps c running schedule) = None.
Proof.
  intros Hstop Hexc.
  assert (H : ∀ l, exited l = None → exited (steps c l schedule) = None).
  { induction schedule as [|a schedule IH]; intros l Hl; [done|].
    unfold steps in *. simpl. apply IH. by apply (step_no_exit l a e). }
  by apply H.
Qed.

(** A [SystemExit] of [stop()] is another matter: the loop raises it
    again and the process ends with its status. *)
Lemma exiting_stop_exits (signum code : Z) :
  engine_stop c = Some (SystemExit code) → engine_stop_awaits c = 0%nat →
  exited (steps c running [Signal signum; Resume 0]) = Some code.
Proof.
  intros Hstop Hawaits. unfold steps. simpl. unfold step at 1. simpl.
  unfold resume. simpl. rewrite Hawaits. unfold continue_stop. by rewrite Hstop.
Qed.


End MoreSignals.



Lemma failing_stop_never_exits_witness :
  exited (steps stop_fails running [Signal SIGTERM; Resume 0; Signal SIGINT; Resume 1]) = None.
Proof.
  apply (failing_stop_never_exits stop_fails _ (RuntimeError "stop failed")); reflexivity.
Defined.

(** ** More on the supervisor *)

Section NeverReturns.
Context {A B : Type}.

Lemma never_returns_raise (e : exn) : never_returns (raise e : M A).
Proof. intros w a. discriminate. Qed.

Lemma never_returns_forever : never_returns (forever : M A).
Proof. intros w a. discriminate. Qed.

Lemma never_returns_bind (m : M A) (k : A → M B) :
  (∀ a, never_returns (k a)) → never_returns (m ≫= k).
Proof.
  intros Hk w b. unfold mbind, M_bind. destruct (m w) as [[a|e|] w']; try discriminate.
  apply Hk.
Qed.

Lemma never_returns_try (body : M A) (handlers : exn → option (M A)) :
  never_returns body →
  (∀ e h, handlers e = Some h → never_returns h) →
  never_returns (try_except body handlers).
Proof.
  intros Hbody Hh w a. unfold try_except. specialize (Hbody w).
  destruct (body w) as [[a'|e|] w']; simpl in *.
  - by specialize (Hbody a').
  - destruct (handlers e) as [h|] eqn:He; [|discriminate]. by apply (Hh e h).
  - discriminate.
Qed.
End NeverReturns.

Lemma shutdown_never_returns (c : collaborators) (self : ScalpingBot) :
  never_returns (shutdown c self).
Proof.
  unfold shutdown. repeat (apply never_returns_bind; intros ?).
  apply never_returns_raise.
Qed.

(** [run] does not come back to its caller, and neither does
    [shutdown]: each ends by an exception ([SystemExit] included) or
    not at all.  So [main] returns normally only when a
    [KeyboardInterrupt] reaches it. *)
Theorem run_never_returns (c : collaborators) (env0 dotenv : environ)
    (self : ScalpingBot) (w : world) :
  (run c env0 dotenv self w).1 ≠ Returns () ∧
  (shutdown c self w).1 ≠ Returns () ∧
  ((main c env0 dotenv w).1 = Returns () →
   ∃ w', (bot ← ScalpingBot_init c env0 dotenv; run c env0 dotenv bot) w
           = (Raises KeyboardInterrupt, w')).
Proof.
  assert (Hrun : ∀ bot, never_returns (run c env0 dotenv bot)).
  { intros bot. unfold run. apply never_returns_try.
    - unfold run_body. repeat (apply never_returns_bind; intros ?).
      destruct (sleep_loop c); [apply never_returns_raise|apply never_returns_forever].
    - intros e h. unfold except_Exception. destruct (is_Exception e); [|discriminate].
      intros [= <-]. do 2 (apply never_returns_bind; intros ?).
      apply shutdown_never_returns. }
  split; [apply Hrun|]. split; [apply shutdown_never_returns|].
  unfold main, try_except.
  pose proof (never_returns_bind (ScalpingBot_init c env0 dotenv)
                (λ bot, run c env0 dotenv bot) Hrun w) as Hbody.
  destruct ((ScalpingBot_init c env0 dotenv ≫= λ bot, run c env0 dotenv bot) w)
    as [[[]|e|] w'] eqn:Hb; simpl in *.
  - by specialize (Hbody ()).
  - destruct e; unfold except_Exception; simpl; try discriminate.
    intros _. by exists w'.
  - discriminate.
Qed.

Section Adds.
Context {A B : Type} (P : event → Prop).

Lemma adds_ret (a : A) : adds P (mret a : M A).
Proof. intros w. exists []. by rewrite app_nil_r. Qed.

Lemma adds_raise (e : exn) : adds P (raise e : M A).
Proof. intros w. exists []. by rewrite app_nil_r. Qed.

Lemma adds_forever : adds P (forever : M A).
Proof. intros w. exists []. by rewrite app_nil_r. Qed.

Lemma adds_lift (r : result A) : adds P (lift r).
Proof. destruct r; [apply adds_ret|apply adds_raise]. Qed.

Lemma adds_on_disk (op : storage → result A * storage) : adds P (on_disk op).
Proof.
  intros w. exists []. unfold on_disk. rewrite app_nil_r.
  by destruct (op (disk w)) as [[a|e] d].
Qed.

Lemma adds_bind (m : M A) (k : A → M B) :
  adds P m → (∀ a w w', m w = (Returns a, w') → adds P (k a)) → adds P (m ≫= k).
Proof.
  intros Hm Hk w. destruct (Hm w) as (evs & Htr & Hevs).
  unfold mbind, M_bind. destruct (m w) as [[a|e|] w'] eqn:Hmw; simpl in Htr.
  - destruct (Hk a w w' Hmw w') as (evs' & Htr' & Hevs').
    exists (evs ++ evs'). rewrite Htr', Htr, app_assoc. split; [done|].
    by apply Forall_app.
  - by exists evs.
  - by exists evs.
Qed.

Lemma adds_try (body : M A) (handlers : exn → option (M A)) :
  adds P body → (∀ e h, handlers e = Some h → adds P h) →
  adds P (try_except body handlers).
Proof.
  intros Hbody Hh w. destruct (Hbody w) as (evs & Htr & Hevs).
  unfold try_except. destruct (body w) as [[a|e|] w'] eqn:Hbw; simpl in Htr.
  - by exists evs.
  - destruct (handlers e) as [h|] eqn:He; [|by exists evs].
    destruct (Hh e h He w') as (evs' & Htr' & Hevs').
    exists (evs ++ evs'). rewrite Htr', Htr, app_assoc. split; [done|].
    by apply Forall_app.
  - by exists evs.
Qed.
End Adds.

Lemma adds_emit (P : event → Prop) (e : event) : P e → adds P (emit e).
Proof. intros He w. exists [e]. split; [done|]. by constructor. Qed.

Lemma adds_call (P : event → Prop) (o : option exn) : adds P (call o).
Proof. destruct o; [apply adds_raise|apply adds_ret]. Qed.

(** Step through a computation built from the supervisor's
    operations. *)
Ltac adds_step :=
  first
    [ apply adds_ret | apply adds_raise | apply adds_forever | apply adds_lift
    | apply adds_on_disk | apply adds_call
    | apply adds_emit; try done
    | apply adds_bind; [|intros ? ? ? _] ].

Lemma shutdown_adds (P : event → Prop) (c : collaborators) (self : ScalpingBot) :
  (∀ msg, P (Log INFO msg)) → P (Stop EngineLoop) → adds P (shutdown c self).
Proof.
  intros Hlog Hstop. unfold shutdown, sys_exit, log.
  apply adds_bind; [by apply adds_emit|intros ? ? ? _].
  apply adds_bind.
  - destruct (trading_engine self); [|apply adds_ret].
    apply adds_bind; [by apply adds_emit|intros ? ? ? _]. apply adds_call.
  - intros ? ? ? _. apply adds_bind; [by apply adds_emit|intros ? ? ? _]. apply adds_raise.
Qed.

Lemma validate_config_adds (P : event → Prop) (env : environ) :
  (∀ msg, P (Log ERROR msg)) → adds P (_validate_config env).
Proof.
  intros Hlog. unfold _validate_config, log, sys_exit.
  destruct (List.filter _ _); [apply adds_ret|].
  apply adds_bind; [by apply adds_emit|intros ? ? ? _]. apply adds_raise.
Qed.

Lemma init_adds (P : event → Prop) (c : collaborators) (env0 dotenv : environ) :
  (∀ msg, P (Log ERROR msg)) → (∀ s, P (Constructed s)) → (∀ n, P (SignalHandler n)) →
  adds P (ScalpingBot_init c env0 dotenv).
Proof.
  intros Hlog Hcons Hsig. unfold ScalpingBot_init.
  apply adds_bind; [apply adds_lift|intros ? ? ? _].
  apply adds_bind; [by apply validate_config_adds|intros ? ? ? _].
  repeat adds_step.
Qed.

Lemma run_adds (P : event → Prop) (c : collaborators) (env0 dotenv : environ)
    (self : ScalpingBot) :
  (∀ lvl msg, P (Log lvl msg)) → (∀ s, P (Start s)) → P (Stop EngineLoop) →
  (telegram_configured self = true → ∀ n, P (Notify n)) →
  adds P (run c env0 dotenv self).
Proof.
  intros Hlog Hstart Hstop Hnotify. unfold run. apply adds_try.
  - unfold run_body, start_health_check, import_and_init_db, log.
    repeat (apply adds_bind; [|intros ? ? ? _]);
      try (destruct (truthy (TELEGRAM_BOT_TOKEN (config self))));
      try (destruct (telegram_configured self) eqn:Ht);
      try (destruct (sleep_loop c));
      repeat adds_step; auto.
  - intros e h. unfold except_Exception. destruct (is_Exception e); [|discriminate].
    intros [= <-]. unfold log.
    apply adds_bind; [by apply adds_emit|intros ? ? ? _].
    apply adds_bind; [|intros ? ? ? _; by apply shutdown_adds].
    destruct (telegram_configured self) eqn:Ht; [|apply adds_ret].
    apply adds_bind; [apply adds_emit; auto|intros ? ? ? _]. apply adds_call.
Qed.

Lemma main_handlers_add (P : event → Prop) (e : exn) (h : M ()) :
  (∀ lvl msg, P (Log lvl msg)) →
  match e with
  | KeyboardInterrupt => Some (log INFO "Bot stopped by user")
  | _ => except_Exception (λ e,
           log ERROR (String.append "Application failed to start: " (str e));;
           sys_exit 1) e
  end = Some h →
  adds P h.
Proof.
  intros Hlog. unfold except_Exception, log, sys_exit.
  destruct e; simpl; intros [= <-]; repeat adds_step.
Qed.

(** No code of the supervisor calls a [stop] but the engine's:
    whatever the environment and the collaborators do, in a run of
    [main] that no signal interrupts, what [__init__], [run],
    [shutdown] and the handlers of [main] do holds no [stop] of the
    Health Endpoint and none of the Notifier. *)
Theorem main_stops_engine_only (c : collaborators) (env0 dotenv : environ) (w : world) :
  ∃ evs, trace (main c env0 dotenv w).2 = trace w ++ evs ∧
         ∀ s, Stop s ∈ evs → s = EngineLoop.
Proof.
  assert (H : adds (λ e, ∀ s, e = Stop s → s = EngineLoop) (main c env0 dotenv)).
  { unfold main. apply adds_try.
    - apply adds_bind.
      + apply init_adds; intros; discriminate.
      + intros bot ? ? _. apply run_adds; intros; try discriminate. congruence.
    - intros e h. apply main_handlers_add. intros; discriminate. }
  destruct (H w) as (evs & Htr & Hall). exists evs. split; [done|].
  intros s Hs. rewrite Forall_forall in Hall. by apply (Hall (Stop s)).
Qed.

Lemma init_returns_inv (c : collaborators) (env0 dotenv : environ)
    (w w' : world) (self : ScalpingBot) :
  ScalpingBot_init c env0 dotenv w = (Returns self, w') →
  from_env (py_int c) (py_float c) env0 (load_dotenv dotenv env0) = Return (config self) ∧
  unset_or_empty (load_dotenv dotenv env0) "BYBIT_API_KEY" = false ∧
  unset_or_empty (load_dotenv dotenv env0) "BYBIT_API_SECRET" = false ∧
  new_TradingEngine c = None ∧ new_TelegramBot c = None ∧
  int_getenv (py_int c) (load_dotenv dotenv env0) "HEALTH_CHECK_PORT" 8080
    = Return (health_check_port self) ∧
  trading_engine self = true ∧
  trace w' = trace w ++ [Constructed EngineLoop; Constructed Notifier;
                         SignalHandler SIGINT; SignalHandler SIGTERM] ∧
  disk w' = disk w.
Proof.
  unfold ScalpingBot_init, _validate_config, mbind, M_bind, lift, call, emit, log,
    sys_exit, raise, mret, M_ret.
  destruct (from_env _ _ _ _) as [cfg|e]; [|discriminate]. simpl.
  destruct (unset_or_empty _ "BYBIT_API_KEY"), (unset_or_empty _ "BYBIT_API_SECRET");
    simpl; try discriminate.
  destruct (new_TradingEngine c); [discriminate|]. simpl.
  destruct (new_TelegramBot c); [discriminate|]. simpl.
  destruct (int_getenv _ _ _ _) as [port|e]; [|discriminate]. simpl.
  intros [= <- <-]. simpl. rewrite <- !app_assoc. done.
Qed.

(** When the constructor returns, the credentials are set and not
    empty, the engine and the Telegram bot have been constructed in
    that order, and only then the two signal handlers have been
    installed, SIGINT first; nothing has been started and the disk is
    untouched.  The bot holds the configuration [from_env] built and
    the port of [HEALTH_CHECK_PORT], 8080 when that is unset. *)
Theorem init_returns (c : collaborators) (env0 dotenv : environ)
    (w w' : world) (self : ScalpingBot) :
  ScalpingBot_init c env0 dotenv w = (Returns self, w') →
  from_env (py_int c) (py_float c) env0 (load_dotenv dotenv env0) = Return (config self) ∧
  BYBIT_API_KEY (config self) ≠ "" ∧ BYBIT_API_SECRET (config self) ≠ "" ∧
  (getenv (load_dotenv dotenv env0) "HEALTH_CHECK_PORT" = None → health_check_port self = 8080) ∧
  trading_engine self = true ∧
  trace w' = trace w ++ [Constructed EngineLoop; Constructed Notifier;
                         SignalHandler SIGINT; SignalHandler SIGTERM] ∧
  starts (trace w') = starts (trace w) ∧
  disk w' = disk w.
Proof.
  intros Hinit.
  destruct (init_returns_inv c env0 dotenv w w' self Hinit)
    as (Hcfg & Hk & Hs & _ & _ & Hport & Hattr & Htr & Hdisk).
  destruct (from_env_strings _ _ _ _ _ Hcfg) as (Hkey & Hsec & _).
  split; [done|]. unfold unset_or_empty in Hk, Hs.
  split; [|split; [|split; [|split; [done|split; [done|split; [|done]]]]]].
  - rewrite Hkey. by destruct (getenv _ "BYBIT_API_KEY") as [[|]|].
  - rewrite Hsec. by destruct (getenv _ "BYBIT_API_SECRET") as [[|]|].
  - intros Hnone. unfold int_getenv in Hport. rewrite Hnone in Hport. congruence.
  - rewrite Htr. unfold starts. rewrite omap_app. simpl. by rewrite app_nil_r.
Qed.

Lemma init_returns_witness :
  ∃ self w',
    ScalpingBot_init quiet render_env ∅ (fresh with_data_dir) = (Returns self, w') ∧
    trace w' = [Constructed EngineLoop; Constructed Notifier;
                SignalHandler SIGINT; SignalHandler SIGTERM] ∧
    health_check_port self = 8080.
Proof.
  destruct (ScalpingBot_init quiet render_env ∅ (fresh with_data_dir)) as [[self| |] w']
    eqn:Hinit; try discriminate Hinit.
  exists self, w'. split; [reflexivity|].
  destruct (init_returns quiet render_env ∅ (fresh with_data_dir) w' self Hinit)
    as (_ & _ & _ & Hport & _ & Htr & _).
  split; [exact Htr|]. apply Hport. reflexivity.
Defined.

(** Whatever makes the constructor raise an [Exception] (a bad number
    in the environment, a collaborator's constructor failing), [main]
    logs one more error and ends with exit status 1, and no subsystem
    has been started and the disk is untouched. *)
Theorem init_failure_exit (c : collaborators) (env0 dotenv : environ)
    (w w' : world) (e : exn) :
  ScalpingBot_init c env0 dotenv w = (Raises e, w') →
  is_Exception e = true →
  (∃ msg, main c env0 dotenv w =
            (Raises (SystemExit 1), {| trace := trace w' ++ [Log ERROR msg]; disk := disk w' |})) ∧
  exit_status (main c env0 dotenv w).1 = Some 1 ∧
  starts (trace (main c env0 dotenv w).2) = starts (trace w) ∧
  disk (main c env0 dotenv w).2 = disk w.
Proof.
  intros Hinit Hexc.
  assert (Hmain : ∃ msg, main c env0 dotenv w =
            (Raises (SystemExit 1), {| trace := trace w' ++ [Log ERROR msg]; disk := disk w' |})).
  { unfold main, try_except, mbind, M_bind. rewrite Hinit.
    unfold except_Exception. destruct e; try discriminate Hexc; simpl; by eexists. }
  split; [exact Hmain|]. destruct Hmain as [msg ->]. simpl. split; [done|].
  assert (Hadds : adds (λ ev, is_start ev = false) (ScalpingBot_init c env0 dotenv))
    by (apply init_adds; done).
  destruct (Hadds w) as (evs & Htr & Hevs). rewrite Hinit in Htr. simpl in Htr.
  split.
  - rewrite Htr. unfold starts. rewrite !omap_app. simpl. rewrite app_nil_r.
    assert (Hnil : omap (λ e0, match e0 with Start s => Some s | _ => None end) evs = []).
    { clear Htr. induction Hevs as [|ev evs Hev _ IH]; [done|].
      simpl. destruct ev; try discriminate Hev; exact IH. }
    by rewrite Hnil, app_nil_r.
  - revert Hinit. clear.
    unfold ScalpingBot_init, _validate_config, mbind, M_bind, lift, call, emit, log,
      sys_exit, raise, mret, M_ret.
    destruct (from_env _ _ _ _) as [cfg|e']; [|by intros [= _ <-]]. simpl.
    destruct (unset_or_empty _ "BYBIT_API_KEY"), (unset_or_empty _ "BYBIT_API_SECRET");
      simpl; try (by intros [= _ <-]).
    destruct (new_TradingEngine c); [by intros [= _ <-]|]. simpl.
    destruct (new_TelegramBot c); [by intros [= _ <-]|]. simpl.
    destruct (int_getenv _ _ _ _) as [port|e']; [discriminate|]. simpl.
    by intros [= _ <-].
Qed.

Lemma init_failure_exit_witness :
  exit_status
    (main quiet (<["HEALTH_CHECK_PORT" := "eighty"]> render_env) ∅ (fresh with_data_dir)).1
    = Some 1.
Proof.
  destruct (ScalpingBot_init quiet (<["HEALTH_CHECK_PORT" := "eighty"]> render_env) ∅
              (fresh with_data_dir)) as [[self|e|] w'] eqn:Hinit; try discriminate Hinit.
  refine (proj1 (proj2 (init_failure_exit quiet _ ∅ (fresh with_data_dir) w' e Hinit _))).
  injection Hinit as <- _. reflexivity.
Defined.

(** Without a Telegram token or without a chat id no notification is
    ever sent: whatever else happens, a run of [main] calls
    [send_notification] for neither the start nor a crash. *)
Theorem no_notification_unconfigured (c : collaborators) (env0 dotenv : environ) (w : world) :
  unset_or_empty (load_dotenv dotenv env0) "TELEGRAM_BOT_TOKEN" = true ∨
  unset_or_empty (load_dotenv dotenv env0) "TELEGRAM_CHAT_ID" = true →
  ∃ evs, trace (main c env0 dotenv w).2 = trace w ++ evs ∧ ∀ n, Notify n ∉ evs.
Proof.
  intros Hunset.
  assert (H : adds (λ e, ∀ n, e ≠ Notify n) (main c env0 dotenv)).
  { unfold main. apply adds_try.
    - apply adds_bind.
      + apply init_adds; intros; discriminate.
      + intros bot w0 w1 Hinit. apply run_adds; intros; try discriminate.
        exfalso.
        destruct (init_returns_inv c env0 dotenv w0 w1 bot Hinit) as (Hcfg & _).
        destruct (from_env_strings _ _ _ _ _ Hcfg) as (_ & _ & Htok & Hchat).
        unfold telegram_configured in *. rewrite Htok, Hchat in *.
        unfold unset_or_empty in Hunset.
        destruct (getenv _ "TELEGRAM_BOT_TOKEN") as [[|]|],
                 (getenv _ "TELEGRAM_CHAT_ID") as [[|]|];
          simpl in *; destruct Hunset; discriminate.
    - intros e h. apply main_handlers_add. intros; discriminate. }
  destruct (H w) as (evs & Htr & Hall). exists evs. split; [done|].
  intros n Hn. rewrite Forall_forall in Hall. by apply (Hall (Notify n) Hn n).
Qed.

Lemma no_notification_unconfigured_witness :
  ∃ evs,
    trace (main engine_fails_to_start
             (list_to_map [("BYBIT_API_KEY", "key"); ("BYBIT_API_SECRET", "secret");
                           ("TELEGRAM_BOT_TOKEN", "token")])
             ∅ (fresh with_data_dir)).2 = [] ++ evs ∧
    ∀ n, Notify n ∉ evs.
Proof.
  apply (no_notification_unconfigured engine_fails_to_start
           (list_to_map [("BYBIT_API_KEY", "key"); ("BYBIT_API_SECRET", "secret");
                         ("TELEGRAM_BOT_TOKEN", "token")])
           ∅ (fresh with_data_dir)).
  right. reflexivity.
Defined.

(** The crash notification is not best-effort: when sending it
    raises, [run] ends with that exception, the shutdown is not
    reached (no [stop] is delivered, nothing more is logged), and, the
    exception being an [Exception], [main] ends with exit status 1. *)
Theorem crash_notification_raises (c : collaborators) (env0 dotenv : environ)
    (self : ScalpingBot) (w0 w w1 : world) (e e' : exn) :
  ScalpingBot_init c env0 dotenv w0 = (Returns self, w) →
  run_body c env0 dotenv self w = (Raises e, w1) →
  is_Exception e = true →
  telegram_configured self = true →
  send_notification c (BotCrashed (substring 0 200 (str e))) = Some e' →
  is_Exception e' = true →
  run c env0 dotenv self w =
    (Raises e',
     {| trace := trace w1 ++ [Log ERROR (String.append "Fatal error: " (str e));
                              Notify (BotCrashed (substring 0 200 (str e)))];
        disk := disk w1 |}) ∧
  stops (trace (main c env0 dotenv w0).2) = stops (trace w1) ∧
  exit_status (main c env0 dotenv w0).1 = Some 1.
Proof.
  intros Hinit Hbody Hexc Hconf Hsend Hexc'.
  assert (Hrun : run c env0 dotenv self w =
    (Raises e',
     {| trace := trace w1 ++ [Log ERROR (String.append "Fatal error: " (str e));
                              Notify (BotCrashed (substring 0 200 (str e)))];
        disk := disk w1 |})).
  { unfold run, try_except. rewrite Hbody. unfold except_Exception. rewrite Hexc.
    unfold log, emit, call, raise, mbind, M_bind. rewrite Hconf. simpl. rewrite Hsend.
    simpl. by rewrite <- app_assoc. }
  split; [exact Hrun|].
  assert (Hmain : ∃ msg, main c env0 dotenv w0 =
    (Raises (SystemExit 1),
     {| trace := (trace w1 ++ [Log ERROR (String.append "Fatal error: " (str e));
                               Notify (BotCrashed (substring 0 200 (str e)))])
                 ++ [Log ERROR msg];
        disk := disk w1 |})).
  { unfold main, try_except. unfold mbind at 1, M_bind at 1. rewrite Hinit, Hrun.
    unfold except_Exception, log, emit, sys_exit, raise, mbind, M_bind.
    destruct e'; try discriminate Hexc'; simpl; by eexists. }
  destruct Hmain as [msg ->]. simpl. rewrite !stops_app. simpl.
  by rewrite !app_nil_r.
Qed.

Lemma crash_notification_raises_witness :
  exit_status (main telegram_down render_env ∅ (fresh with_data_dir)).1 = Some 1 ∧
  stops (trace (main telegram_down render_env ∅ (fresh with_data_dir)).2) = [].
Proof.
  destruct (ScalpingBot_init telegram_down render_env ∅ (fresh with_data_dir))
    as [[self| |] w] eqn:Hinit; try discriminate Hinit.
  destruct (run_body telegram_down render_env ∅ self w) as [[|e|] w1] eqn:Hbody.
  - exfalso. injection Hinit as <- <-. discriminate Hbody.
  - destruct (crash_notification_raises telegram_down render_env ∅ self
                (fresh with_data_dir) w w1 e (RuntimeError "telegram unreachable")
                Hinit Hbody) as (_ & Hstops & Hexit).
    + injection Hinit as <- <-. injection Hbody as <- _. reflexivity.
    + injection Hinit as <- <-. reflexivity.
    + reflexivity.
    + reflexivity.
    + split; [exact Hexit|]. rewrite Hstops.
      injection Hinit as <- <-. injection Hbody as _ <-. reflexivity.
  - exfalso. injection Hinit as <- <-. discriminate Hbody.
Defined.






Lemma run_forever_body (c : collaborators) (env0 dotenv : environ)
    (self : ScalpingBot) (w : world) :
  (run c env0 dotenv self w).1 = Forever ↔ (run_body c env0 dotenv self w).1 = Forever.
Proof.
  unfold run, try_except.
  destruct (run_body c env0 dotenv self w) as [[[]|e|] w1]; simpl; try done.
  unfold except_Exception. destruct (is_Exception e); [|done].
  unfold shutdown, log, emit, call, sys_exit, raise, mbind, M_bind, mret, M_ret.
  destruct (telegram_configured self); simpl;
    try destruct (send_notification c _); simpl;
    destruct (trading_engine self); simpl;
    try destruct (engine_stop c); simpl; done.
Qed.

(** [run] goes on for ever exactly when every step of the start
    returned (the imports, the configuration, the database engine,
    [init_db], the engine's [start()], the start notification when
    Telegram is configured) and nothing breaks the sleep loop.  In
    every other case it ends by an exception. *)
Theorem run_forever_iff (c : collaborators) (env0 dotenv : environ)
    (self : ScalpingBot) (w : world) :
  (run c env0 dotenv self w).1 = Forever ↔
    import_fastapi_uvicorn c = None ∧
    (∃ cfg d,
       from_env (py_int c) (py_float c) env0 (load_dotenv dotenv env0) = Return cfg ∧
       init_db (database_target (parse_url c) cfg) (disk w) = (Return (), d)) ∧
    create_async_engine c = None ∧
    engine_start c = None ∧
    (telegram_configured self = true →
     send_notification c
       (BotStarted (BYBIT_TESTNET (config self)) (SYMBOL (config self))
          (LEVERAGE (config self)) (now c)) = None) ∧
    sleep_loop c = None.
Proof.
  rewrite run_forever_body.
  unfold run_body, start_health_check, import_and_init_db, on_disk,
    log, emit, call, lift, raise, forever, mbind, M_bind, mret, M_ret.
  simpl.
  destruct (import_fastapi_uvicorn c); simpl; [split; [done|by intros [? _]]|].
  destruct (from_env _ _ _ _) as [cfg|e]; simpl;
    [|split; [done|by intros (_ & (? & ? & ? & _) & _)]].
  destruct (create_async_engine c); simpl; [split; [done|by intros (_ & _ & ? & _)]|].
  destruct (init_db _ (disk w)) as [[[]|e] d] eqn:Hinit; simpl.
  2: { split; [done|]. intros (_ & (cfg' & d' & [= <-] & Hi) & _). congruence. }
  assert (Hdb : ∃ cfg0 d0, Return cfg = Return cfg0 ∧
            init_db (database_target (parse_url c) cfg0) (disk w) = (Return (), d0))
    by (by exists cfg, d).
  destruct (truthy (TELEGRAM_BOT_TOKEN (config self))); simpl;
    (destruct (engine_start c); simpl; [split; [done|by intros (_ & _ & _ & ? & _)]|]);
    (destruct (telegram_configured self); simpl;
     [destruct (send_notification c _) eqn:Hsend; simpl;
      [split; [done|intros (_ & _ & _ & _ & Hn & _); by specialize (Hn eq_refl)]|]|]);
    (destruct (sleep_loop c); simpl;
     [split; [done|by intros (_ & _ & _ & _ & _ & ?)]|]);
    (split; [intros _|done]; repeat split; done).
Qed.
